(** * ER (encode / rebuild) coordinator: a shallow embedding of [src/er.c]

    The development follows the C file top-down: the state file
    ([er_state_write], [er_state_read]), the two registries
    ([ER_Create_Scheme], [ER_Free_Scheme], [ER_Create], [ER_Add], [ER_Free],
    [ER_Init], [ER_Finalize]) and the dispatch pipelines ([er_encode],
    [er_rebuild], [er_remove], [ER_Dispatch]).

    Conventions.
    - C [int] values (return codes, states, ids, block counts) are [Z];
      the counters are only ever incremented by one, and a signed overflow
      is undefined in C, so statements about whole runs are restricted to
      runs shorter than [INT_MAX] calls.
    - MPI ranks and sizes are [nat].
    - A [const char*] argument that may be [NULL] is an [option string].
    - The collaborators (redset, shuffile, kvtree, MPI) live outside
      [er.c]; what [er.c] observes of them is a return value compared with
      the library's SUCCESS constant, which is a [bool] here. *)

From Stdlib Require Import ZArith Ascii String List Lia.
From stdpp Require Import base option list sorting gmap strings pretty.

Local Open Scope string_scope.
Local Open Scope Z_scope.

(** ** Constants of er.h and er.c *)

Definition ER_SUCCESS : Z := 0.
Definition ER_FAILURE : Z := 1.

Definition ER_DIRECTION_ENCODE : Z := 1.
Definition ER_DIRECTION_REBUILD : Z := 2.
Definition ER_DIRECTION_REMOVE : Z := 3.

Definition ER_STATE_NULL : Z := 0.
Definition ER_STATE_CORRUPT : Z := 1.
Definition ER_STATE_ENCODED : Z := 2.

Definition INT_MAX : Z := 2147483647.

(** ** File names *)

(** [snprintf(buf, len, ...)] keeps at most [len - 1] characters. *)
Definition snprintf (len : nat) (s : string) : string :=
  substring 0 (len - 1) s.

Definition build_er_path (path : string) : string :=
  snprintf 1024 (path ++ ".er").

Definition build_shuffile_path (path : string) : string :=
  snprintf 1024 (path ++ ".shuffile").

Definition build_redset_path (path : string) (rank : nat) : string :=
  snprintf 1024 (path ++ "." ++ pretty rank).

(** ** The processes of a set

    A set carries two communicators.  [comm_world] is the list of its
    processes in rank order; for each of them the model keeps its rank in
    [comm_store] and the state files it finds, [er_files]: what
    [kvtree_read_file] followed by the lookup of STATE yields for a path
    string (a file that is absent, unreadable or without that key has no
    entry).  This is all of the storage that er.c itself reads or writes.
    - Only rank 0 of a storage group, its leader, ever opens a state file:
      the [er_files] of the other members stand for nothing and are never
      looked at.
    - The entries are keyed by the path string er.c hands to kvtree;
      whether two strings name one file is the file system's business and
      is not represented, so a read is related to a write only when both
      go through the same string.
    - The application, redundancy and shuffle files belong to the codec
      and the shuffle service, which create, move and delete them; they
      are no part of [er_files], and those calls appear in the trace of a
      dispatch only. *)

Record proc := Proc {
  rank_store : nat;
  er_files : gmap string Z
}.

Definition is_leader (p : proc) : bool := (rank_store p =? 0)%nat.

(** ** State file *)

(** er.c drops the results of [kvtree_write_file] and of [unlink]; what
    they did to the file is the environment's answer.  A write has put the
    state into the file, or has failed before touching it (the file could
    not be opened), or has failed leaving a file that cannot be read. *)
Inductive write_result := Written | Untouched | Damaged.

(** The file system as the processes meet it: the outcome of the write of
    [state] into [er_file] by a world rank, and whether that rank's
    [unlink] of [er_file] removed it. *)
Record file_system := FileSystem {
  kvtree_write_file : nat -> string -> Z -> write_result;
  unlink : nat -> string -> bool
}.

(** One process's share of [er_state_write]: only rank 0 of the storage
    group writes. *)
Definition write_local (fs : file_system) (er_file : string) (state : Z)
  (rank_world : nat) (p : proc) : proc :=
  if is_leader p
  then match kvtree_write_file fs rank_world er_file state with
       | Written => Proc (rank_store p) (<[er_file := state]> (er_files p))
       | Untouched => p
       | Damaged => Proc (rank_store p) (delete er_file (er_files p))
       end
  else p.

(** [er_state_write] as run by every process of [comm_world]; the barrier
    makes the leaders' writes, as far as they took effect, visible on
    return. *)
Definition er_state_write (fs : file_system) (w : list proc) (path : string)
  (state : Z) : list proc :=
  imap (write_local fs (build_er_path path) state) w.

(** The value a process holds before the reduction: NULL, overwritten by
    the STATE entry of the file when the process is a leader and the
    entry can be read. *)
Definition local_state (er_file : string) (p : proc) : Z :=
  if is_leader p
  then default ER_STATE_NULL (er_files p !! er_file)
  else ER_STATE_NULL.

Definition valid_rank (ranks_world rank_world : nat) (state : Z) : nat :=
  if bool_decide (state ≠ ER_STATE_NULL) then rank_world else ranks_world.

(** [MPI_Allreduce(.., MPI_MIN, ..)]: the least contribution, the caller's
    included. *)
Definition MPI_Allreduce_MIN (contribs : list nat) (mine : nat) : nat :=
  foldr Nat.min mine contribs.

(** [MPI_Bcast]: the caller's buffer receives the value of [root]. *)
Definition MPI_Bcast (vals : list Z) (root : nat) (mine : Z) : Z :=
  default mine (vals !! root).

(** [er_state_read] as seen by world rank [me]. *)
Definition er_state_read (w : list proc) (me : nat) (path : string) : Z :=
  let er_file := build_er_path path in
  let states := local_state er_file <$> w in
  let state := default ER_STATE_NULL (states !! me) in
  let ranks_world := length w in
  let valid := imap (valid_rank ranks_world) states in
  let lowest_rank :=
    MPI_Allreduce_MIN valid (valid_rank ranks_world me state) in
  if (lowest_rank <? ranks_world)%nat
  then MPI_Bcast states lowest_rank state
  else state.

(** ** Collaborators

    [redset.h], [shuffile.h] and [kvtree.h] are not part of the sources.
    The codec variants are kept symbolic; a descriptor records what
    [redset_create] was asked for. *)

Inductive redset_copy :=
| REDSET_COPY_NULL
| REDSET_COPY_SINGLE
| REDSET_COPY_PARTNER
| REDSET_COPY_XOR.

Definition MPI_Comm : Type := nat.

Record redset := Redset {
  red_type : redset_copy;
  red_comm : MPI_Comm;
  red_domain : option string
}.

(** What one dispatch observes of the codec and of the shuffle service:
    each function answers whether the call returned the library's SUCCESS
    value (and, for [redset_recover], the descriptor it filled in).  The
    answers are the same on every rank of [comm_world].  [storage] is the
    file system under the state file. *)
Record collaborators := Collaborators {
  redset_apply : list string -> string -> redset -> bool;
  redset_filelist_get : string -> redset -> list string;
  redset_recover : string -> bool * redset;
  redset_unapply : string -> redset -> bool;
  redset_delete : redset -> bool;
  shuffile_create : list string -> string -> bool;
  shuffile_migrate : string -> bool;
  shuffile_remove : string -> bool;
  storage : file_system
}.

(** What a run leaves behind, in program order. *)
Inductive event :=
| EvStateWrite (er_file : string) (state : Z)
| EvUnlink (er_file : string)
| EvRedsetApply (files : list string) (redset_path : string) (d : redset) (ok : bool)
| EvRedsetRecover (redset_path : string) (ok : bool)
| EvRedsetUnapply (redset_path : string) (d : redset) (ok : bool)
| EvRedsetDelete (d : redset) (ok : bool)
| EvShuffileCreate (files : list string) (shuffile_file : string) (ok : bool)
| EvShuffileMigrate (shuffile_file : string) (ok : bool)
| EvShuffileRemove (shuffile_file : string) (ok : bool)
| EvShuffileFinalize (ok : bool)
| EvRedsetFinalize (ok : bool)
| EvErr (msg : string).

(** A call into the codec or the shuffle service. *)
Definition is_collab (ev : event) : bool :=
  match ev with
  | EvStateWrite _ _ | EvUnlink _ | EvErr _ => false
  | _ => true
  end.

(** The answer of a collaborator call ([true] for the other events). *)
Definition ev_ok (ev : event) : bool :=
  match ev with
  | EvRedsetApply _ _ _ ok | EvRedsetRecover _ ok | EvRedsetUnapply _ _ ok
  | EvRedsetDelete _ ok | EvShuffileCreate _ _ ok | EvShuffileMigrate _ ok
  | EvShuffileRemove _ ok | EvShuffileFinalize ok | EvRedsetFinalize ok => ok
  | _ => true
  end.

(** ** Registries

    [er_schemes] and [er_sets] are kvtrees: [NULL] before [ER_Init] and
    after [ER_Finalize] ([None] here), otherwise a tree whose SCHEMES
    (resp. SETS) child maps an id to a record.  Every record is written by
    [ER_Create_Scheme] (resp. [ER_Create]), which stores PTR (resp. NAME,
    DIRECTION and STRUCT) in it, so these keys are fields; SCHEME is stored
    for ENCODE only and stays optional.  A scheme record is its PTR.
    The two communicators of a set are opaque handles; the processes
    behind them are the [sys_world] a dispatch runs on. *)

Record erset := Erset {
  comm_world : MPI_Comm;
  comm_store : MPI_Comm
}.

Record set_rec := SetRec {
  NAME : string;
  DIRECTION : Z;
  STRUCT : erset;
  SCHEME : option Z;
  FILE : list string
}.

Record er_globals := Globals {
  er_scheme_counter : Z;
  er_set_counter : Z;
  er_schemes : option (gmap Z redset);
  er_sets : option (gmap Z set_rec)
}.

(** The statics of er.c when the process starts. *)
Definition er_start : er_globals := Globals 0 0 None None.

Definition kvtree_get_kv_int {A} (t : option (gmap Z A)) (id : Z) : option A :=
  t ≫= (λ m, m !! id).

Definition kvtree_unset_kv_int {A} (t : option (gmap Z A)) (id : Z)
  : option (gmap Z A) :=
  delete id <$> t.

Definition kvtree_size {A} (t : option (gmap Z A)) : nat :=
  from_option size 0%nat t.

(** The FILE child of a set is a kvtree hash whose keys are the paths.  A
    hash keeps its elements in a linked list with one element per key:
    [kvtree_set_kv] returns the element of a key that is already there and
    links a new element at the head otherwise; [kvtree_elem_first] and
    [kvtree_elem_next] walk the list from the head. *)
Definition kvtree_set_kv (hash : list string) (key : string) : list string :=
  if decide (key ∈ hash) then hash else key :: hash.

Definition with_schemes (g : er_globals) (t : option (gmap Z redset))
  : er_globals :=
  Globals (er_scheme_counter g) (er_set_counter g) t (er_sets g).

Definition with_sets (g : er_globals) (t : option (gmap Z set_rec))
  : er_globals :=
  Globals (er_scheme_counter g) (er_set_counter g) (er_schemes g) t.

Definition ER_Init (redset_init_ok shuffile_init_ok : bool) (g : er_globals)
  : Z * er_globals :=
  let g := Globals (er_scheme_counter g) (er_set_counter g) (Some ∅) (Some ∅) in
  let rc := ER_SUCCESS in
  let rc := if redset_init_ok then rc else ER_FAILURE in
  let rc := if shuffile_init_ok then rc else ER_FAILURE in
  (rc, g).

Definition ER_Finalize (shuffile_finalize_ok redset_finalize_ok : bool)
  (g : er_globals) : Z * er_globals * list event :=
  let rc := ER_SUCCESS in
  let live_schemes := (0 <? kvtree_size (er_schemes g))%nat in
  let rc := if live_schemes then ER_FAILURE else rc in
  let live_sets := (0 <? kvtree_size (er_sets g))%nat in
  let rc := if live_sets then ER_FAILURE else rc in
  let g := Globals (er_scheme_counter g) (er_set_counter g) None None in
  let rc := if shuffile_finalize_ok then rc else ER_FAILURE in
  let rc := if redset_finalize_ok then rc else ER_FAILURE in
  (rc, g,
   ((if live_schemes then [EvErr "ER_Finalize called before schemes freed"] else [])
    ++ (if live_sets then [EvErr "ER_Finalize called before sets freed"] else [])
    ++ [EvShuffileFinalize shuffile_finalize_ok;
        EvRedsetFinalize redset_finalize_ok])%list).

Definition encoding_type_of (encoding_blocks erasure_blocks : Z)
  : option redset_copy :=
  if erasure_blocks =? 0 then Some REDSET_COPY_SINGLE
  else if encoding_blocks =? erasure_blocks then Some REDSET_COPY_PARTNER
  else if erasure_blocks =? 1 then Some REDSET_COPY_XOR
  else None.

Definition ER_Create_Scheme (redset_create_ok : bool)
  (comm : MPI_Comm) (failure_domain : option string)
  (encoding_blocks erasure_blocks : Z) (g : er_globals) : Z * er_globals :=
  if encoding_blocks <? 1 then (ER_FAILURE, g)
  else match encoding_type_of encoding_blocks erasure_blocks with
       | None => (ER_FAILURE, g)
       | Some encoding_type =>
         let d := Redset encoding_type comm failure_domain in
         if redset_create_ok then
           let counter := er_scheme_counter g + 1 in
           let g := Globals counter (er_set_counter g)
                            (insert counter d <$> er_schemes g) (er_sets g) in
           (er_scheme_counter g, g)
         else (-1, g)
       end.

Definition ER_Free_Scheme (redset_delete_ok : bool) (scheme_id : Z)
  (g : er_globals) : Z * er_globals :=
  match kvtree_get_kv_int (er_schemes g) scheme_id with
  | Some d =>
    let rc := if redset_delete_ok then ER_SUCCESS else ER_FAILURE in
    (rc, with_schemes g (kvtree_unset_kv_int (er_schemes g) scheme_id))
  | None => (ER_FAILURE, g)
  end.

(** [name == NULL || strcmp(name, "") == 0] *)
Definition null_or_empty (s : option string) : bool :=
  match s with
  | None => true
  | Some s => bool_decide (s = EmptyString)
  end.

Definition valid_direction (direction : Z) : bool :=
  (direction =? ER_DIRECTION_ENCODE) || (direction =? ER_DIRECTION_REBUILD)
  || (direction =? ER_DIRECTION_REMOVE).

Definition ER_Create (comm_world comm_store : MPI_Comm) (name : option string)
  (direction scheme_id : Z) (g : er_globals) : Z * er_globals :=
  if null_or_empty name then (ER_FAILURE, g)
  else if negb (valid_direction direction) then (ER_FAILURE, g)
  else
    let counter := er_set_counter g + 1 in
    let setptr := Erset comm_world comm_store in
    (* kvtree_set_kv_int returns the record already under the key, if any *)
    let old := kvtree_get_kv_int (er_sets g) counter in
    let encode := direction =? ER_DIRECTION_ENCODE in
    let set := SetRec (default EmptyString name) direction setptr
                      (if encode then Some scheme_id else old ≫= SCHEME)
                      (from_option FILE [] old) in
    let sets := insert counter set <$> er_sets g in
    let rc :=
      if encode
      then match kvtree_get_kv_int (er_schemes g) scheme_id with
           | Some _ => ER_SUCCESS
           | None => ER_FAILURE
           end
      else ER_SUCCESS in
    if rc =? ER_SUCCESS
    then (counter, Globals (er_scheme_counter g) counter (er_schemes g) sets)
    else (-1, Globals (er_scheme_counter g) counter (er_schemes g)
                      (kvtree_unset_kv_int sets counter)).

Definition ER_Add (set_id : Z) (file : option string) (g : er_globals)
  : Z * er_globals :=
  if null_or_empty file then (ER_FAILURE, g)
  else match kvtree_get_kv_int (er_sets g) set_id with
       | Some set =>
         let set := SetRec (NAME set) (DIRECTION set) (STRUCT set) (SCHEME set)
                           (kvtree_set_kv (FILE set) (default EmptyString file)) in
         (ER_SUCCESS, with_sets g (insert set_id set <$> er_sets g))
       | None => (ER_FAILURE, g)
       end.

Definition ER_Free (set_id : Z) (g : er_globals) : Z * er_globals :=
  (ER_SUCCESS, with_sets g (kvtree_unset_kv_int (er_sets g) set_id)).

Definition ER_Test (set_id : Z) : Z := 1.

Definition ER_Wait (set_id : Z) : Z := ER_SUCCESS.

(** ** Dispatch

    A pipeline runs on the processes of the set and leaves a trace: a
    small state monad over both. *)

Record sys := Sys {
  sys_world : list proc;
  sys_trace : list event
}.

Definition M (A : Type) : Type := sys -> A * sys.

Definition ret {A} (a : A) : M A := λ s, (a, s).

Definition bind {A B} (m : M A) (k : A -> M B) : M B :=
  λ s, let '(a, s') := m s in k a s'.

Declare Scope er_scope.
Delimit Scope er_scope with er.
Notation "x <~ m ;; k" := (bind m (λ x, k))
  (at level 100, m at next level, right associativity) : er_scope.
Notation "m ;;; k" := (bind m (λ _, k))
  (at level 100, right associativity) : er_scope.

(** A collaborator call: its answer, recorded in the trace.  What the
    call does to the files of the codec and of the shuffle service is not
    represented ([sys_world] holds the state files only), and the call is
    taken to leave the state files alone: the codec works under the
    redset path of a rank, the shuffle service on its shuffle file. *)
Definition call {A} (a : A) (ev : event) : M A :=
  λ s, (a, Sys (sys_world s) (sys_trace s ++ [ev])%list).

(** The call of [er_state_write]; the event records the call, not what
    became of the write. *)
Definition state_write (fs : file_system) (path : string) (state : Z)
  : M unit :=
  λ s, (tt, Sys (er_state_write fs (sys_world s) path state)
                (sys_trace s ++ [EvStateWrite (build_er_path path) state])%list).

Definition state_read (me : nat) (path : string) : M Z :=
  λ s, (er_state_read (sys_world s) me path, s).

(** [if (rank_store == 0) unlink(er_file)] on every process; an [unlink]
    that fails leaves the file. *)
Definition unlink_local (fs : file_system) (er_file : string)
  (rank_world : nat) (p : proc) : proc :=
  if is_leader p
  then if unlink fs rank_world er_file
       then Proc (rank_store p) (delete er_file (er_files p))
       else p
  else p.

Definition unlink_leaders (fs : file_system) (er_file : string) : M unit :=
  λ s, (tt, Sys (imap (unlink_local fs er_file) (sys_world s))
                (sys_trace s ++ [EvUnlink er_file])%list).

(** The prefix of all metadata files of a set:
    [snprintf(path, sizeof(path), "%s.er", name)]. *)
Definition metadata_path (name : string) : string :=
  snprintf 1024 (name ++ ".er").

Section Pipelines.

Variable C : collaborators.
(** world rank of the calling process *)
Variable me : nat.

Local Open Scope er_scope.

Definition er_encode (filenames : list string) (path : string) (d : redset)
  : M Z :=
  let rc := ER_SUCCESS in
  let shuffile_file := build_shuffile_path path in
  let redset_path := build_redset_path path me in
  state_write (storage C) path ER_STATE_CORRUPT ;;;
  applied <~ (let ok := redset_apply C filenames redset_path d in
              call ok (EvRedsetApply filenames redset_path d ok)) ;;
  let rc := if applied then rc else ER_FAILURE in
  let red_list := redset_filelist_get C redset_path d in
  let filenames2 := (filenames ++ red_list)%list in
  created <~ (let ok := shuffile_create C filenames2 shuffile_file in
              call ok (EvShuffileCreate filenames2 shuffile_file ok)) ;;
  let rc := if created then rc else ER_FAILURE in
  if rc =? ER_SUCCESS
  then state_write (storage C) path ER_STATE_ENCODED ;;; ret rc
  else ret rc.

Definition er_rebuild (path : string) : M Z :=
  let rc := ER_SUCCESS in
  state <~ state_read me path ;;
  if negb (state =? ER_STATE_ENCODED) then ret ER_FAILURE
  else
    let shuffile_file := build_shuffile_path path in
    let redset_path := build_redset_path path me in
    state_write (storage C) path ER_STATE_CORRUPT ;;;
    (let ok := shuffile_migrate C shuffile_file in
     call ok (EvShuffileMigrate shuffile_file ok)) ;;;
    recovered <~ (let ok := fst (redset_recover C redset_path) in
                  call ok (EvRedsetRecover redset_path ok)) ;;
    let rc := if recovered then rc else ER_FAILURE in
    if rc =? ER_SUCCESS
    then state_write (storage C) path ER_STATE_ENCODED ;;; ret rc
    else ret rc.

Definition er_remove (path : string) : M Z :=
  let rc := ER_SUCCESS in
  let er_file := build_er_path path in
  let shuffile_file := build_shuffile_path path in
  let redset_path := build_redset_path path me in
  state_write (storage C) path ER_STATE_CORRUPT ;;;
  (let ok := shuffile_remove C shuffile_file in
   call ok (EvShuffileRemove shuffile_file ok)) ;;;
  d <~ (let r := redset_recover C redset_path in
        call (snd r) (EvRedsetRecover redset_path (fst r))) ;;
  (let ok := redset_unapply C redset_path d in
   call ok (EvRedsetUnapply redset_path d ok)) ;;;
  (let ok := redset_delete C d in
   call ok (EvRedsetDelete d ok)) ;;;
  unlink_leaders (storage C) er_file ;;;
  ret rc.

Definition ER_Dispatch (g : er_globals) (set_id : Z) : M Z :=
  let rc := ER_SUCCESS in
  match kvtree_get_kv_int (er_sets g) set_id with
  | Some set =>
    let name := NAME set in
    let path := metadata_path name in
    let direction := DIRECTION set in
    if direction =? ER_DIRECTION_ENCODE then
      let filenames := FILE set in
      let rc := match SCHEME set with Some _ => rc | None => ER_FAILURE end in
      let scheme_id := default 0 (SCHEME set) in
      match kvtree_get_kv_int (er_schemes g) scheme_id with
      | Some d =>
        if rc =? ER_SUCCESS then er_encode filenames path d else ret rc
      | None => ret ER_FAILURE
      end
    else if direction =? ER_DIRECTION_REBUILD then er_rebuild path
    else er_remove path
  | None => ret ER_FAILURE
  end.

End Pipelines.

(** ** Runs of the registry calls

    A call with the answers of the collaborators it reaches.
    [ER_Dispatch], [ER_Test] and [ER_Wait] leave the statics alone and are
    not listed. *)

Inductive api_call :=
| CallInit (redset_init_ok shuffile_init_ok : bool)
| CallFinalize (shuffile_finalize_ok redset_finalize_ok : bool)
| CallCreateScheme (redset_create_ok : bool) (comm : MPI_Comm)
    (failure_domain : option string) (encoding_blocks erasure_blocks : Z)
| CallFreeScheme (redset_delete_ok : bool) (scheme_id : Z)
| CallCreate (comm_world comm_store : MPI_Comm) (name : option string)
    (direction scheme_id : Z)
| CallAdd (set_id : Z) (file : option string)
| CallFree (set_id : Z).

Definition step (c : api_call) (g : er_globals) : Z * er_globals :=
  match c with
  | CallInit r s => ER_Init r s g
  | CallFinalize s r => fst (ER_Finalize s r g)
  | CallCreateScheme ok comm fd D E => ER_Create_Scheme ok comm fd D E g
  | CallFreeScheme ok id => ER_Free_Scheme ok id g
  | CallCreate cw cs name dir sid => ER_Create cw cs name dir sid g
  | CallAdd id file => ER_Add id file g
  | CallFree id => ER_Free id g
  end.

(** The (D, E) pairs of the scheme table: SINGLE, PARTNER, XOR. *)
Definition supported (D E : Z) : Prop :=
  (1 <= D ∧ E = 0) ∨ (1 <= D ∧ E = D) ∨ (2 <= D ∧ E = 1).

(** The calls that reach the final [return] with [rc == ER_SUCCESS]. *)
Definition Create_Scheme_succeeds (ok : bool) (D E : Z) : bool :=
  negb (D <? 1) && bool_decide (is_Some (encoding_type_of D E)) && ok.

Definition Create_succeeds (name : option string) (direction scheme_id : Z)
  (g : er_globals) : bool :=
  negb (null_or_empty name) && valid_direction direction
  && (negb (direction =? ER_DIRECTION_ENCODE)
      || bool_decide (is_Some (kvtree_get_kv_int (er_schemes g) scheme_id))).

(** The ids handed out by the successful [ER_Create_Scheme] (resp.
    [ER_Create]) calls of a run, oldest first. *)
Fixpoint scheme_ids (cs : list api_call) (g : er_globals) : list Z :=
  match cs with
  | [] => []
  | c :: cs =>
    let '(r, g') := step c g in
    match c with
    | CallCreateScheme ok _ _ D E =>
      if Create_Scheme_succeeds ok D E then r :: scheme_ids cs g'
      else scheme_ids cs g'
    | _ => scheme_ids cs g'
    end
  end.

Fixpoint set_ids (cs : list api_call) (g : er_globals) : list Z :=
  match cs with
  | [] => []
  | c :: cs =>
    let '(r, g') := step c g in
    match c with
    | CallCreate _ _ name dir sid =>
      if Create_succeeds name dir sid g then r :: set_ids cs g'
      else set_ids cs g'
    | _ => set_ids cs g'
    end
  end.

(** The state after a run. *)
Definition run (cs : list api_call) (g : er_globals) : er_globals :=
  foldl (λ g c, snd (step c g)) g cs.

(** ** Vocabulary of the statements *)

(** One dispatch on the processes [w], from an empty trace. *)
Definition dispatch (C : collaborators) (me : nat) (g : er_globals)
  (set_id : Z) (w : list proc) : Z * sys :=
  ER_Dispatch C me g set_id (Sys w []).

Definition dispatch_rc C me g set_id w : Z := (dispatch C me g set_id w).1.

Definition dispatch_world C me g set_id w : list proc :=
  sys_world (dispatch C me g set_id w).2.

Definition dispatch_trace C me g set_id w : list event :=
  sys_trace (dispatch C me g set_id w).2.

(** Every leader's replica of the state file of [path] holds [o] ([None]:
    the file is absent). *)
Definition replicas_hold (w : list proc) (path : string) (o : option Z) : Prop :=
  Forall (λ p, is_leader p = true -> er_files p !! build_er_path path = o) w.

(** Every collaborator call comes after a write of CORRUPT. *)
Definition corrupt_precedes_collaborators (tr : list event) : Prop :=
  ∀ i ev, tr !! i = Some ev -> is_collab ev = true ->
    ∃ j f, (j < i)%nat ∧ tr !! j = Some (EvStateWrite f ER_STATE_CORRUPT).

(** A write of ENCODED comes after every collaborator call, and each call
    that [counted] selects has reported success. *)
Definition encoded_after_success (counted : event -> bool) (tr : list event)
  : Prop :=
  ∀ i f, tr !! i = Some (EvStateWrite f ER_STATE_ENCODED) ->
    ∀ j ev, tr !! j = Some ev -> is_collab ev = true ->
      (j < i)%nat ∧ (counted ev = true -> ev_ok ev = true).

(** The calls whose answer the pipeline of [direction] folds into [rc]:
    apply and create when encoding, recover when rebuilding, none when
    removing. *)
Definition checked (direction : Z) (ev : event) : bool :=
  if direction =? ER_DIRECTION_ENCODE then
    match ev with
    | EvRedsetApply _ _ _ _ | EvShuffileCreate _ _ _ => true
    | _ => false
    end
  else if direction =? ER_DIRECTION_REBUILD then
    match ev with
    | EvRedsetRecover _ _ => true
    | _ => false
    end
  else false.

Definition dispatch_direction (g : er_globals) (set_id : Z) : Z :=
  from_option DIRECTION 0 (kvtree_get_kv_int (er_sets g) set_id).

Definition some_call_failed (counted : event -> bool) (tr : list event) : Prop :=
  ∃ ev, ev ∈ tr ∧ counted ev = true ∧ ev_ok ev = false.


(** [ER_Add] of each path in turn. *)
Definition add_all (set_id : Z) (paths : list string) (g : er_globals)
  : er_globals :=
  foldl (λ g p, (ER_Add set_id (Some p) g).2) g paths.

Definition files_of (g : er_globals) (set_id : Z) : list string :=
  from_option FILE [] (kvtree_get_kv_int (er_sets g) set_id).

(** ** Concrete inputs

    Three world ranks in two storage groups, {0, 1} and {2}; collaborators
    that answer with fixed values. *)

Definition three_ranks : list proc := [Proc 0 ∅; Proc 1 ∅; Proc 0 ∅].

(** A file system on which every write and every unlink takes effect,
    and one on which no state file can be opened (the directory of the
    set name does not exist). *)
Definition reliable : file_system :=
  FileSystem (λ _ _ _, Written) (λ _ _, true).

Definition unwritable : file_system :=
  FileSystem (λ _ _ _, Untouched) (λ _ _, false).

Definition answering_on (fs : file_system)
  (apply create migrate recover remove : bool) : collaborators :=
  {| redset_apply := λ _ _ _, apply;
     redset_filelist_get := λ redset_path _, [redset_path ++ ".redset"];
     redset_recover := λ _, (recover, Redset REDSET_COPY_XOR 0%nat None);
     redset_unapply := λ _ _, true;
     redset_delete := λ _, true;
     shuffile_create := λ _ _, create;
     shuffile_migrate := λ _, migrate;
     shuffile_remove := λ _, remove;
     storage := fs |}.

Definition answering : bool -> bool -> bool -> bool -> bool -> collaborators :=
  answering_on reliable.

(** ER_Init; ER_Create_Scheme(2, 1); ER_Create("ckpt", ENCODE, 1);
    ER_Add(1, "data.0"). *)
Definition g_encode : er_globals :=
  run [CallInit true true;
       CallCreateScheme true 0%nat (Some "node") 2 1;
       CallCreate 0%nat 1%nat (Some "ckpt") ER_DIRECTION_ENCODE 1;
       CallAdd 1 (Some "data.0")] er_start.

Definition g_rebuild : er_globals :=
  run [CallInit true true;
       CallCreate 0%nat 1%nat (Some "ckpt") ER_DIRECTION_REBUILD 0] er_start.

Definition g_remove : er_globals :=
  run [CallInit true true;
       CallCreate 0%nat 1%nat (Some "ckpt") ER_DIRECTION_REMOVE 0] er_start.

(** [three_ranks] after a successful encode of "ckpt". *)
Definition three_ranks_encoded : list proc :=
  er_state_write reliable three_ranks "ckpt.er" ER_STATE_ENCODED.

(** ER_Init; ER_Create_Scheme(2, 1): one live scheme, of id 1. *)
Definition g_one_scheme : er_globals :=
  run [CallInit true true;
       CallCreateScheme true 0%nat (Some "node") 2 1] er_start.

(** As [g_encode], before any file is added. *)
Definition g_no_file : er_globals :=
  run [CallInit true true;
       CallCreateScheme true 0%nat (Some "node") 2 1;
       CallCreate 0%nat 1%nat (Some "ckpt") ER_DIRECTION_ENCODE 1] er_start.

(** A run with rejected calls and a free in between: the scheme calls
    return 1, 1 (rejected), 2; the set calls return 1 (rejected), -1 (the
    counter is bumped all the same), 2. *)
Definition mixed_run : list api_call :=
  [CallInit true true;
   CallCreateScheme true 0%nat (Some "node") 2 1;
   CallCreateScheme true 0%nat (Some "node") 3 2;
   CallFreeScheme true 1;
   CallCreateScheme true 0%nat (Some "node") 1 0;
   CallCreate 0%nat 1%nat (Some "") ER_DIRECTION_REBUILD 0;
   CallCreate 0%nat 1%nat (Some "ckpt") ER_DIRECTION_ENCODE 7;
   CallCreate 0%nat 1%nat (Some "ckpt") ER_DIRECTION_REBUILD 0].

(** Walks a trace given element by element. *)
Ltac by_position i :=
  repeat (destruct i as [| i]; simpl in *; simplify_eq/=; try done).

(** ** Vocabulary of the further statements *)

Definition has_leader (w : list proc) : bool := existsb is_leader w.

(** The writes of the state file [er_file] take effect, whoever writes
    and whatever the state; the leaders' unlinks of it take effect. *)
Definition writes_take_effect (fs : file_system) (er_file : string) : Prop :=
  ∀ rank state, kvtree_write_file fs rank er_file state = Written.

Definition unlinks_take_effect (fs : file_system) (er_file : string) : Prop :=
  ∀ rank, unlink fs rank er_file = true.

(** The name of the dispatched set, and its state file. *)
Definition dispatch_name (g : er_globals) (set_id : Z) : string :=
  from_option NAME "" (kvtree_get_kv_int (er_sets g) set_id).

Definition dispatch_er_file (g : er_globals) (set_id : Z) : string :=
  build_er_path (metadata_path (dispatch_name g set_id)).

(** The trace is empty or opens with the write of CORRUPT into [er_file];
    every collaborator call comes later. *)
Definition corrupt_written_first (er_file : string) (tr : list event) : Prop :=
  ∀ i ev, tr !! i = Some ev -> is_collab ev = true ->
    (0 < i)%nat ∧ tr !! 0%nat = Some (EvStateWrite er_file ER_STATE_CORRUPT).

(** A write of ENCODED goes into [er_file], is the last event of the
    trace, belongs to an encode or a rebuild, and comes after every
    collaborator call, each call that the pipeline checks having reported
    success. *)
Definition encoded_written_last (er_file : string) (direction : Z)
  (tr : list event) : Prop :=
  ∀ i f, tr !! i = Some (EvStateWrite f ER_STATE_ENCODED) ->
    f = er_file ∧ S i = length tr ∧
    (direction = ER_DIRECTION_ENCODE ∨ direction = ER_DIRECTION_REBUILD) ∧
    ∀ j ev, tr !! j = Some ev -> is_collab ev = true ->
      (j < i)%nat ∧ (checked direction ev = true -> ev_ok ev = true).

(** No write of ENCODED, into whatever file. *)
Definition never_encoded (tr : list event) : Prop :=
  ∀ f, EvStateWrite f ER_STATE_ENCODED ∉ tr.

(** A failure of a checked call keeps ENCODED from being written; so does
    a direction that is neither ENCODE nor REBUILD. *)
Definition failure_blocks_encoded (direction : Z) (tr : list event) : Prop :=
  some_call_failed (checked direction) tr -> never_encoded tr.

Definition removal_never_encodes (direction : Z) (tr : list event) : Prop :=
  direction ≠ ER_DIRECTION_ENCODE -> direction ≠ ER_DIRECTION_REBUILD ->
  never_encoded tr.

(** The ids of a registry lie between 1 and its counter. *)
Definition ids_within {A} (t : option (gmap Z A)) (counter : Z) : Prop :=
  ∀ m id, t = Some m -> is_Some (m !! id) -> 1 <= id <= counter.

(** What [ER_Create] and [ER_Add] let into a set record. *)
Definition set_wf (set : set_rec) : Prop :=
  NAME set ≠ "" ∧
  valid_direction (DIRECTION set) = true ∧
  (DIRECTION set = ER_DIRECTION_ENCODE ↔ is_Some (SCHEME set)) ∧
  NoDup (FILE set).

Definition registries_wf (g : er_globals) : Prop :=
  0 <= er_scheme_counter g ∧ 0 <= er_set_counter g ∧
  ids_within (er_schemes g) (er_scheme_counter g) ∧
  ids_within (er_sets g) (er_set_counter g) ∧
  (∀ m id set, er_sets g = Some m -> m !! id = Some set -> set_wf set).

(** Opens [registries_wf] into its five parts. *)
Ltac split_wf :=
  unfold registries_wf; split; [| split; [| split; [| split]]]; simpl.

(** The codec variant of a supported pair, as the table of the scheme
    registry has it: no erasure block, as many erasure blocks as data
    blocks, one erasure block. *)
Definition variant_of (D E : Z) : redset_copy :=
  if bool_decide (E = 0) then REDSET_COPY_SINGLE
  else if bool_decide (E = D) then REDSET_COPY_PARTNER
  else REDSET_COPY_XOR.

(** [g_encode] after its scheme was freed. *)
Definition g_encode_scheme_freed : er_globals :=
  (ER_Free_Scheme true 1 g_encode).2.

(** A name of [n] characters ['x'] followed by [tail]. *)
Fixpoint padded_name (n : nat) (tail : string) : string :=
  match n with
  | O => tail
  | S n => String "x"%char (padded_name n tail)
  end.

(** * Properties *)

(** ** Properties of the state file *)

Lemma Allreduce_MIN_le_elem l m x :
  x ∈ l -> (MPI_Allreduce_MIN l m <= x)%nat.
Proof.
  unfold MPI_Allreduce_MIN.
  induction 1 as [x l | x y l _ IH]; simpl; lia.
Qed.

Lemma Allreduce_MIN_attained l m :
  MPI_Allreduce_MIN l m = m ∨ MPI_Allreduce_MIN l m ∈ l.
Proof.
  unfold MPI_Allreduce_MIN. induction l as [| x l IH]; simpl.
  - by left.
  - destruct (Nat.min_spec x (foldr Nat.min m l)) as [[_ ->] | [_ ->]].
    + right; left.
    + destruct IH as [IH | IH]; [by left | right; by right].
Qed.

Lemma valid_rank_cases N i s :
  (s = ER_STATE_NULL ∧ valid_rank N i s = N) ∨
  (s ≠ ER_STATE_NULL ∧ valid_rank N i s = i).
Proof. unfold valid_rank. case_bool_decide; [right | left]; done. Qed.

Lemma elem_of_valid N (states : list Z) x :
  x ∈ imap (valid_rank N) states ->
  x = N ∨ ∃ s, states !! x = Some s ∧ s ≠ ER_STATE_NULL.
Proof.
  intros Hx. apply elem_of_lookup_imap in Hx as (i & s & -> & Hi).
  destruct (valid_rank_cases N i s) as [[_ ->] | [Hs ->]]; eauto.
Qed.

(** The reduction elects the first rank whose value is not NULL. *)
Lemma lowest_rank_first (states : list Z) me st i s :
  states !! i = Some s -> s ≠ ER_STATE_NULL ->
  (∀ j s', (j < i)%nat -> states !! j = Some s' -> s' = ER_STATE_NULL) ->
  st = default ER_STATE_NULL (states !! me) ->
  MPI_Allreduce_MIN (imap (valid_rank (length states)) states)
                    (valid_rank (length states) me st) = i.
Proof.
  intros Hi Hs Hlow ->.
  set (N := length states).
  set (low := MPI_Allreduce_MIN _ _).
  assert (HiN : (i < N)%nat) by (eapply lookup_lt_Some; eauto).
  assert (Hle : (low <= i)%nat).
  { apply Allreduce_MIN_le_elem. apply elem_of_lookup_imap.
    exists i, s. split; [| done].
    destruct (valid_rank_cases N i s) as [[? _] | [_ ->]]; done. }
  assert (Hge : low = N ∨ ∃ s', states !! low = Some s' ∧ s' ≠ ER_STATE_NULL).
  { destruct (Allreduce_MIN_attained
                (imap (valid_rank N) states)
                (valid_rank N me (default ER_STATE_NULL (states !! me))))
      as [E | E]; fold low in E.
    - destruct (valid_rank_cases N me (default ER_STATE_NULL (states !! me)))
        as [[_ E'] | [Hne E']]; rewrite E' in E; [by left |].
      right. destruct (states !! me) as [sm |] eqn:Hme; simpl in Hne; [| done].
      exists sm. by rewrite E.
    - by apply elem_of_valid. }
  destruct Hge as [-> | (s' & Hlo & Hne)]; [lia |].
  destruct (decide (low = i)) as [| Hneq]; [done |].
  exfalso. apply Hne. apply (Hlow low); [lia | done].
Qed.

Lemma lowest_rank_none (states : list Z) me st :
  Forall (λ s, s = ER_STATE_NULL) states ->
  st = default ER_STATE_NULL (states !! me) ->
  st = ER_STATE_NULL ∧
  MPI_Allreduce_MIN (imap (valid_rank (length states)) states)
                    (valid_rank (length states) me st) = length states.
Proof.
  intros Hall ->.
  assert (Hme : default ER_STATE_NULL (states !! me) = ER_STATE_NULL).
  { destruct (states !! me) as [sm |] eqn:E; [| done]. simpl.
    eapply Forall_lookup_1 in Hall; eauto. }
  split; [done |]. rewrite Hme.
  set (N := length states).
  destruct (Allreduce_MIN_attained (imap (valid_rank N) states)
              (valid_rank N me ER_STATE_NULL)) as [E | E].
  - rewrite E. unfold valid_rank. by rewrite bool_decide_eq_false_2 by auto.
  - apply elem_of_valid in E as [E | (s & Hs & Hne)]; [done |].
    eapply Forall_lookup_1 in Hall; eauto. done.
Qed.

(** What [er_state_read] returns, in terms of the local values. *)
Lemma er_state_read_spec (w : list proc) (me : nat) (path : string) :
  let states := local_state (build_er_path path) <$> w in
  let r := er_state_read w me path in
  (∃ i s, states !! i = Some s ∧ s ≠ ER_STATE_NULL ∧
          (∀ j s', (j < i)%nat -> states !! j = Some s' -> s' = ER_STATE_NULL) ∧
          r = s)
  ∨ (Forall (λ s, s = ER_STATE_NULL) states ∧ r = ER_STATE_NULL).
Proof.
  intros states r. subst r. unfold er_state_read. fold states.
  replace (length w) with (length states) by apply length_fmap.
  destruct (list_find (λ s, s ≠ ER_STATE_NULL) states) as [[i s] |] eqn:Hfind.
  - apply list_find_Some in Hfind as (Hi & Hs & Hlow).
    left. exists i, s. repeat split; try done.
    { intros j s' Hj Hj'. destruct (decide (s' = ER_STATE_NULL)); [done |].
      exfalso. by eapply Hlow. }
    erewrite lowest_rank_first; eauto.
    + assert ((i <? length states)%nat = true) as ->.
      { apply Nat.ltb_lt. eapply lookup_lt_Some; eauto. }
      unfold MPI_Bcast. by rewrite Hi.
    + intros j s' Hj Hj'. destruct (decide (s' = ER_STATE_NULL)); [done |].
      exfalso. by eapply Hlow.
  - apply list_find_None in Hfind.
    assert (Hall : Forall (λ s, s = ER_STATE_NULL) states).
    { eapply Forall_impl; [exact Hfind |]. simpl. intros s Hs.
      destruct (decide (s = ER_STATE_NULL)); [done | by destruct Hs]. }
    right. split; [done |].
    destruct (lowest_rank_none states me _ Hall eq_refl) as [E1 E2].
    rewrite E2. by rewrite Nat.ltb_irrefl.
Qed.

(** C2. Whatever the layout of the storage groups and whatever each replica
    holds, [er_state_read] returns at every rank the local value of the
    lowest world rank whose local value is not NULL, and NULL when no rank
    has one.  The local value of a rank is the STATE entry its leader role
    lets it read, NULL otherwise ([local_state]). *)
Theorem C2_state_read_lowest_non_null (w : list proc) (me : nat) (path : string) :
  let states := local_state (build_er_path path) <$> w in
  let r := er_state_read w me path in
  (∃ i s, states !! i = Some s ∧ s ≠ ER_STATE_NULL ∧
          (∀ j s', (j < i)%nat -> states !! j = Some s' -> s' = ER_STATE_NULL) ∧
          r = s)
  ∨ (Forall (λ s, s = ER_STATE_NULL) states ∧ r = ER_STATE_NULL).
Proof. apply er_state_read_spec. Qed.

(** *** Reading back what was written *)

Lemma local_state_write fs er_file state i p :
  kvtree_write_file fs i er_file state = Written ->
  local_state er_file (write_local fs er_file state i p) =
  if is_leader p then state else ER_STATE_NULL.
Proof.
  intros Hw. unfold local_state, write_local. rewrite Hw.
  destruct (is_leader p) eqn:E; unfold is_leader in *; simpl; rewrite E; [| done].
  by rewrite lookup_insert_eq.
Qed.

(** Where the writes take effect, the leaders hold the written state. *)
Lemma local_states_after_write fs w path state :
  writes_take_effect fs (build_er_path path) ->
  local_state (build_er_path path) <$> er_state_write fs w path state =
  (λ p, if is_leader p then state else ER_STATE_NULL) <$> w.
Proof.
  intros Hw. unfold er_state_write. apply list_eq. intros i.
  rewrite !list_lookup_fmap, list_lookup_imap.
  destruct (w !! i) as [p |]; simpl; [| done].
  f_equal. apply local_state_write, Hw.
Qed.


Lemma replicas_hold_unlink fs w path :
  unlinks_take_effect fs (build_er_path path) ->
  replicas_hold (imap (unlink_local fs (build_er_path path)) w) path None.
Proof.
  intros Hu. unfold replicas_hold.
  apply Forall_lookup_2. intros i p Hp.
  rewrite list_lookup_imap in Hp.
  destruct (w !! i) as [q |]; simplify_eq/=.
  unfold unlink_local. rewrite Hu.
  destruct (is_leader q) eqn:E; simpl; [| congruence].
  intros _. by rewrite lookup_delete_eq.
Qed.

(** With a leader in the world, a read after a write of a non-NULL state
    that took effect returns that state at every rank. *)
Lemma er_state_read_write fs w me path state :
  writes_take_effect fs (build_er_path path) ->
  state ≠ ER_STATE_NULL ->
  (∃ p, p ∈ w ∧ is_leader p = true) ->
  er_state_read (er_state_write fs w path state) me path = state.
Proof.
  intros Hw Hne (p & Hp & Hlead).
  pose proof (er_state_read_spec (er_state_write fs w path state) me path) as H.
  cbv zeta in H.
  set (r := er_state_read _ _ _) in *. clearbody r.
  rewrite (local_states_after_write fs w path state Hw) in H.
  destruct H as [(i & s & Hi & Hs & _ & ->) | [Hall _]].
  - apply list_lookup_fmap_Some_1 in Hi as (q & -> & Hq). simpl in *.
    by destruct (is_leader q).
  - exfalso. rewrite Forall_fmap, Forall_forall in Hall.
    specialize (Hall p Hp). simpl in Hall.
    rewrite Hlead in Hall. done.
Qed.

Lemma reliable_writes er_file : writes_take_effect reliable er_file.
Proof. by intros rank state. Qed.

Lemma reliable_unlinks er_file : unlinks_take_effect reliable er_file.
Proof. by intros rank. Qed.

(** ** The pipelines, step by step *)

Section PipelineRuns.

Variable C : collaborators.
Variable me : nat.

Lemma er_encode_run files path d w :
  let redset_path := build_redset_path path me in
  let a := redset_apply C files redset_path d in
  let files2 := (files ++ redset_filelist_get C redset_path d)%list in
  let c := shuffile_create C files2 (build_shuffile_path path) in
  let w1 := er_state_write (storage C) w path ER_STATE_CORRUPT in
  let tr := [EvStateWrite (build_er_path path) ER_STATE_CORRUPT;
             EvRedsetApply files redset_path d a;
             EvShuffileCreate files2 (build_shuffile_path path) c] in
  er_encode C me files path d (Sys w []) =
  if a && c
  then (ER_SUCCESS,
        Sys (er_state_write (storage C) w1 path ER_STATE_ENCODED)
            (tr ++ [EvStateWrite (build_er_path path) ER_STATE_ENCODED])%list)
  else (ER_FAILURE, Sys w1 tr).
Proof.
  intros redset_path a files2 c w1 tr. subst tr w1.
  unfold er_encode, bind, call, state_write, ret. simpl.
  fold redset_path. fold a. fold files2. fold c.
  by destruct a, c.
Qed.

Lemma er_rebuild_run path w :
  let redset_path := build_redset_path path me in
  let m := shuffile_migrate C (build_shuffile_path path) in
  let r := (redset_recover C redset_path).1 in
  let w1 := er_state_write (storage C) w path ER_STATE_CORRUPT in
  let tr := [EvStateWrite (build_er_path path) ER_STATE_CORRUPT;
             EvShuffileMigrate (build_shuffile_path path) m;
             EvRedsetRecover redset_path r] in
  er_rebuild C me path (Sys w []) =
  if negb (er_state_read w me path =? ER_STATE_ENCODED)
  then (ER_FAILURE, Sys w [])
  else if r
  then (ER_SUCCESS,
        Sys (er_state_write (storage C) w1 path ER_STATE_ENCODED)
            (tr ++ [EvStateWrite (build_er_path path) ER_STATE_ENCODED])%list)
  else (ER_FAILURE, Sys w1 tr).
Proof.
  intros redset_path m r w1 tr. subst tr w1.
  unfold er_rebuild, bind, call, state_write, state_read, ret. simpl.
  destruct (er_state_read w me path =? ER_STATE_ENCODED); simpl; [| done].
  fold redset_path. fold r. by destruct r.
Qed.

Lemma er_remove_run path w :
  let redset_path := build_redset_path path me in
  let r := redset_recover C redset_path in
  let w1 := er_state_write (storage C) w path ER_STATE_CORRUPT in
  er_remove C me path (Sys w []) =
  (ER_SUCCESS,
   Sys (imap (unlink_local (storage C) (build_er_path path)) w1)
       [EvStateWrite (build_er_path path) ER_STATE_CORRUPT;
        EvShuffileRemove (build_shuffile_path path)
                         (shuffile_remove C (build_shuffile_path path));
        EvRedsetRecover redset_path r.1;
        EvRedsetUnapply redset_path r.2 (redset_unapply C redset_path r.2);
        EvRedsetDelete r.2 (redset_delete C r.2);
        EvUnlink (build_er_path path)]).
Proof. reflexivity. Qed.

End PipelineRuns.

(** ** Ordering of the state writes *)

Lemma corrupt_written_first_cons er_file tr :
  corrupt_written_first er_file (EvStateWrite er_file ER_STATE_CORRUPT :: tr).
Proof.
  intros [| i] ev Hi Hc; simplify_eq/=. split; [lia | done].
Qed.

Lemma never_encoded_nil : never_encoded [].
Proof. by intros f ?%elem_of_nil. Qed.

(** A dispatch that returns before its pipeline. *)
Lemma empty_trace_ordered er_file direction :
  corrupt_written_first er_file [] ∧
  encoded_written_last er_file direction [] ∧
  failure_blocks_encoded direction [] ∧
  removal_never_encodes direction [].
Proof.
  split; [by intros [| i] ev Hi |].
  split; [by intros [| i] f Hi |].
  split; [intros _ | intros _ _]; apply never_encoded_nil.
Qed.

(** C1, as amended.  In every dispatch the first event is the write of
    CORRUPT into the state file of the set, before any collaborator call.
    A write of ENCODED goes into that same file, is the last step of the
    dispatch, after all its collaborator calls, and happens only in an
    encode or a rebuild whose checked calls have all reported success:
    apply and create when encoding, recover when rebuilding.  If one of
    these calls fails, ENCODED is not written, and a removal never writes
    it. *)
Theorem C1_corrupt_first_encoded_after_checked C me g set_id w :
  let tr := dispatch_trace C me g set_id w in
  let er_file := dispatch_er_file g set_id in
  let direction := dispatch_direction g set_id in
  corrupt_written_first er_file tr ∧
  encoded_written_last er_file direction tr ∧
  failure_blocks_encoded direction tr ∧
  removal_never_encodes direction tr.
Proof.
  intros tr er_file direction. subst tr er_file direction.
  unfold dispatch_trace, dispatch, dispatch_direction, dispatch_er_file,
    dispatch_name, ER_Dispatch.
  destruct (kvtree_get_kv_int (er_sets g) set_id) as [set |]; simpl;
    [| apply empty_trace_ordered].
  destruct (Z.eqb_spec (DIRECTION set) ER_DIRECTION_ENCODE) as [Henc | Henc].
  - destruct (kvtree_get_kv_int (er_schemes g) _) as [d |]; simpl;
      [| apply empty_trace_ordered].
    destruct (SCHEME set); simpl; [| apply empty_trace_ordered].
    rewrite er_encode_run, Henc. unfold checked. simpl.
    split; [destruct (_ && _); apply corrupt_written_first_cons |].
    destruct (redset_apply _ _ _ _) eqn:Ea, (shuffile_create _ _ _) eqn:Ec;
      simpl.
    all: split; [intros i f Hi; by_position i;
                 (split; [done |]); (split; [done |]); (split; [auto |]);
                 intros j ev Hj Hc; by_position j; split; (lia || done) |].
    all: split; [| by intros ? ?].
    all: intros (ev & [i Hi]%list_elem_of_lookup_1 & Hck & Hok) f
                [j Hj]%list_elem_of_lookup_1; by_position i; by_position j.
  - destruct (Z.eqb_spec (DIRECTION set) ER_DIRECTION_REBUILD) as [Hreb | Hreb].
    + rewrite er_rebuild_run, Hreb. unfold checked. simpl.
      destruct (negb _); [apply empty_trace_ordered |].
      split; [destruct (redset_recover _ _).1; apply corrupt_written_first_cons |].
      destruct (redset_recover _ _).1 eqn:Er; simpl.
      all: split; [intros i f Hi; by_position i;
                   (split; [done |]); (split; [done |]); (split; [auto |]);
                   intros j ev Hj Hc; by_position j; split; (lia || done) |].
      all: split; [| by intros ? ?].
      all: intros (ev & [i Hi]%list_elem_of_lookup_1 & Hck & Hok) f
                  [j Hj]%list_elem_of_lookup_1; by_position i; by_position j.
    + rewrite er_remove_run. simpl.
      split; [apply corrupt_written_first_cons |].
      split; [intros i f Hi; by_position i |].
      split; [intros _ | intros _ _];
        intros f [j Hj]%list_elem_of_lookup_1; by_position j.
Qed.

(** A successful encode on [three_ranks], seen from rank 0. *)
Example encode_trace :
  dispatch (answering true true true true true) 0%nat g_encode 1 three_ranks =
  (ER_SUCCESS,
   Sys three_ranks_encoded
       [EvStateWrite "ckpt.er.er" ER_STATE_CORRUPT;
        EvRedsetApply ["data.0"] "ckpt.er.0"
                      (Redset REDSET_COPY_XOR 0%nat (Some "node")) true;
        EvShuffileCreate ["data.0"; "ckpt.er.0.redset"] "ckpt.er.shuffile" true;
        EvStateWrite "ckpt.er.er" ER_STATE_ENCODED]).
Proof. vm_compute. reflexivity. Qed.

(** After a write, every rank reads the state back. *)
Example read_back :
  er_state_read three_ranks_encoded 1%nat "ckpt.er" = ER_STATE_ENCODED.
Proof.
  apply er_state_read_write; [apply reliable_writes | done |].
  exists (Proc 0 ∅). split; [left | done].
Qed.

(** C1 as stated fails: a rebuild whose migrate fails and whose recover
    succeeds writes ENCODED although a collaborator call has failed. *)
Lemma C1_counterexample_migrate_unchecked :
  let tr := dispatch_trace (answering true true false true true) 0%nat
                           g_rebuild 1 three_ranks_encoded in
  ¬ (corrupt_precedes_collaborators tr ∧ encoded_after_success is_collab tr).
Proof.
  intros tr [_ H].
  destruct (H 3%nat "ckpt.er.er" eq_refl 1%nat
              (EvShuffileMigrate "ckpt.er.shuffile" false) eq_refl eq_refl)
    as [_ Hok].
  by specialize (Hok eq_refl).
Qed.

(** ** Rebuild from a state that is not ENCODED *)

(** C4.  When the set is a REBUILD set and the reconciled state read at the
    start of the dispatch is not ENCODED, [ER_Dispatch] returns ER_FAILURE
    and leaves the processes and the trace as they were: no state write, no
    migrate, no recover. *)
Theorem C4_rebuild_refused_unless_encoded C me g set_id set s :
  kvtree_get_kv_int (er_sets g) set_id = Some set ->
  DIRECTION set = ER_DIRECTION_REBUILD ->
  er_state_read (sys_world s) me (metadata_path (NAME set)) ≠ ER_STATE_ENCODED ->
  ER_Dispatch C me g set_id s = (ER_FAILURE, s).
Proof.
  intros Hset Hdir Hstate. unfold ER_Dispatch. rewrite Hset, Hdir. simpl.
  unfold er_rebuild, bind, state_read.
  destruct (Z.eqb_spec (er_state_read (sys_world s) me (metadata_path (NAME set)))
                       ER_STATE_ENCODED); [done |].
  reflexivity.
Qed.

(** The replicas say CORRUPT: the rebuild is refused, nothing is touched. *)
Lemma C4_witness :
  let w := er_state_write reliable three_ranks "ckpt.er" ER_STATE_CORRUPT in
  ER_Dispatch (answering true true true true true) 2%nat g_rebuild 1 (Sys w [])
  = (ER_FAILURE, Sys w []).
Proof.
  intros w.
  eapply (C4_rebuild_refused_unless_encoded _ 2%nat g_rebuild 1 _ (Sys w [])).
  - reflexivity.
  - reflexivity.
  - vm_compute. discriminate.
Defined.

(** ** Failures of the collaborators *)







(** ** Scheme registry *)

Lemma supported_iff D E :
  supported D E ↔ 1 <= D ∧ is_Some (encoding_type_of D E).
Proof.
  unfold supported, encoding_type_of.
  destruct (Z.eqb_spec E 0), (Z.eqb_spec D E), (Z.eqb_spec E 1);
    split; intros H; try (split; [lia | eauto]); try lia;
    destruct H as [? [? ?]]; try done; lia.
Qed.

(** C3.  [ER_Create_Scheme] registers a scheme, under the next counter
    value, exactly for the pairs of [supported], and returns -1 when the
    codec's create fails.  For every other pair, D < 1 included, it
    returns ER_FAILURE, which is 1 and not the sentinel -1. *)
Theorem C3_Create_Scheme_returns ok comm failure_domain D E g :
  ER_Create_Scheme ok comm failure_domain D E g =
  if bool_decide (supported D E) then
    if ok then
      let scheme_id := er_scheme_counter g + 1 in
      let d := Redset (default REDSET_COPY_NULL (encoding_type_of D E))
                      comm failure_domain in
      (scheme_id,
       Globals scheme_id (er_set_counter g)
               (insert scheme_id d <$> er_schemes g) (er_sets g))
    else (-1, g)
  else (ER_FAILURE, g).
Proof.
  unfold ER_Create_Scheme.
  case_bool_decide as Hs; rewrite supported_iff in Hs.
  - destruct Hs as [HD [type Ht]].
    destruct (Z.ltb_spec D 1); [lia |]. rewrite Ht. by destruct ok.
  - destruct (Z.ltb_spec D 1); [done |].
    destruct (encoding_type_of D E) eqn:Ht; [| done].
    exfalso. apply Hs. split; [lia | eauto].
Qed.

(** The rejected pair (0, 0) and the first accepted pair are answered
    alike. *)
Lemma C3_rejected_pair_returns_1 :
  (ER_Create_Scheme true 0%nat None 0 0 (ER_Init true true er_start).2).1 = 1 ∧
  (ER_Create_Scheme true 0%nat None 3 2 (ER_Init true true er_start).2).1 = 1 ∧
  (ER_Create_Scheme true 0%nat None 2 1 (ER_Init true true er_start).2).1 = 1.
Proof. repeat split. Qed.

(** C10.  [ER_Free] returns ER_SUCCESS for every set id, created or not,
    freed before or not, and leaves no record under that id;
    [ER_Free_Scheme] returns ER_FAILURE for an id that the scheme registry
    does not hold. *)
Theorem C10_Free_succeeds_Free_Scheme_fails set_id scheme_id ok g :
  (ER_Free set_id g).1 = ER_SUCCESS ∧
  kvtree_get_kv_int (er_sets (ER_Free set_id g).2) set_id = None ∧
  (ER_Free set_id (ER_Free set_id g).2).1 = ER_SUCCESS ∧
  (ER_Free_Scheme ok scheme_id g).1 =
    match kvtree_get_kv_int (er_schemes g) scheme_id with
    | Some _ => if ok then ER_SUCCESS else ER_FAILURE
    | None => ER_FAILURE
    end.
Proof.
  repeat split.
  - unfold ER_Free, kvtree_get_kv_int, kvtree_unset_kv_int. simpl.
    destruct (er_sets g) as [m |]; simpl; [| done]. apply lookup_delete_eq.
  - unfold ER_Free_Scheme.
    by destruct (kvtree_get_kv_int (er_schemes g) scheme_id).
Qed.

(** C7, as amended.  [ER_Finalize] with a live scheme or set returns
    ER_FAILURE, emits a diagnostic and still finalizes both collaborators;
    it also deletes both registries.  After it, [ER_Free_Scheme] returns
    ER_FAILURE for every id, the formerly live ones included, [ER_Free]
    returns ER_SUCCESS, and another [ER_Finalize] returns ER_SUCCESS exactly
    when both collaborators' finalize calls report success. *)
Theorem C7_Finalize_with_live_handles sf rf g :
  (0 < kvtree_size (er_schemes g) ∨ 0 < kvtree_size (er_sets g))%nat ->
  let rc := (ER_Finalize sf rf g).1.1 in
  let g1 := (ER_Finalize sf rf g).1.2 in
  let tr := (ER_Finalize sf rf g).2 in
  rc = ER_FAILURE ∧
  (∃ msg, EvErr msg ∈ tr) ∧
  EvShuffileFinalize sf ∈ tr ∧ EvRedsetFinalize rf ∈ tr ∧
  er_schemes g1 = None ∧ er_sets g1 = None ∧
  (∀ ok scheme_id, ER_Free_Scheme ok scheme_id g1 = (ER_FAILURE, g1)) ∧
  (∀ set_id, ER_Free set_id g1 = (ER_SUCCESS, g1)) ∧
  (∀ sf' rf', (ER_Finalize sf' rf' g1).1.1 =
              if sf' && rf' then ER_SUCCESS else ER_FAILURE).
Proof.
  intros Hlive rc g1 tr. subst rc g1 tr. unfold ER_Finalize. simpl.
  split.
  { destruct Hlive as [H | H]; apply Nat.ltb_lt in H; rewrite H;
      destruct sf, rf; by repeat case_match. }
  split.
  { destruct Hlive as [H | H]; apply Nat.ltb_lt in H; rewrite H;
      [| destruct (0 <? kvtree_size (er_schemes g))%nat];
      eexists; simpl; rewrite ?elem_of_cons; eauto. }
  split; [rewrite !elem_of_app, !elem_of_cons; eauto |].
  split; [rewrite !elem_of_app, !elem_of_cons; eauto 6 |].
  repeat split. intros [] []; reflexivity.
Qed.

(** CreateScheme; Finalize: ER_FAILURE, and the registries are gone. *)
Lemma C7_witness :
  (ER_Finalize true true g_one_scheme).1.1 = ER_FAILURE ∧
  er_schemes (ER_Finalize true true g_one_scheme).1.2 = None.
Proof.
  destruct (C7_Finalize_with_live_handles true true g_one_scheme)
    as (Hrc & _ & _ & _ & Hs & _).
  - left. vm_compute. lia.
  - split; [exact Hrc | exact Hs].
Defined.

(** C7 as stated fails: after the failing [ER_Finalize], freeing the live
    scheme does not succeed. *)
Lemma C7_counterexample_Free_Scheme_fails :
  let g1 := (ER_Finalize true true g_one_scheme).1.2 in
  let g2 := (ER_Free_Scheme true 1 g1).2 in
  ¬ ((ER_Finalize true true g_one_scheme).1.1 = ER_FAILURE ∧
     (ER_Free_Scheme true 1 g1).1 = ER_SUCCESS ∧
     (ER_Finalize true true g2).1.1 = ER_SUCCESS).
Proof. intros g1 g2 (_ & H & _). vm_compute in H. discriminate H. Qed.

(** ** Ids *)

Lemma step_counters c g :
  er_scheme_counter g <= er_scheme_counter (step c g).2 <= er_scheme_counter g + 1 ∧
  er_set_counter g <= er_set_counter (step c g).2 <= er_set_counter g + 1.
Proof.
  destruct c; simpl;
    unfold ER_Init, ER_Finalize, ER_Create_Scheme, ER_Free_Scheme, ER_Create,
      ER_Add, ER_Free, with_sets, with_schemes;
    repeat (match goal with
            | |- context [if ?b then _ else _] => destruct b
            | |- context [match ?o with Some _ => _ | None => _ end] => destruct o
            end; simpl);
    lia.
Qed.

Lemma Create_Scheme_success ok comm fd D E g :
  Create_Scheme_succeeds ok D E = true ->
  (ER_Create_Scheme ok comm fd D E g).1 = er_scheme_counter g + 1 ∧
  er_scheme_counter (ER_Create_Scheme ok comm fd D E g).2 = er_scheme_counter g + 1.
Proof.
  unfold Create_Scheme_succeeds, ER_Create_Scheme.
  intros [[HD Ht%bool_decide_eq_true]%andb_prop ->]%andb_prop.
  apply negb_true_iff in HD. rewrite HD.
  by destruct Ht as [t ->].
Qed.

Lemma Create_success cw cs name dir sid g :
  Create_succeeds name dir sid g = true ->
  (ER_Create cw cs name dir sid g).1 = er_set_counter g + 1 ∧
  er_set_counter (ER_Create cw cs name dir sid g).2 = er_set_counter g + 1.
Proof.
  unfold Create_succeeds, ER_Create.
  intros [[Hn Hd]%andb_prop Hs]%andb_prop.
  apply negb_true_iff in Hn. rewrite Hn, Hd. simpl.
  destruct (dir =? ER_DIRECTION_ENCODE); simpl in *; [| done].
  apply bool_decide_eq_true in Hs as [d Hs]. by rewrite Hs.
Qed.

Lemma scheme_ids_increase cs g :
  Forall (λ i, er_scheme_counter g < i <= er_scheme_counter g + Z.of_nat (length cs))
         (scheme_ids cs g) ∧
  StronglySorted Z.lt (scheme_ids cs g).
Proof.
  revert g. induction cs as [| c cs IH]; intros g; simpl.
  { split; constructor. }
  pose proof (step_counters c g) as [Hc _].
  destruct (step c g) as [r g'] eqn:Hstep. simpl in Hc.
  destruct (IH g') as [Hb Hs].
  assert (Hrest : Forall (λ i, er_scheme_counter g < i <=
                               er_scheme_counter g + Z.of_nat (S (length cs)))
                         (scheme_ids cs g')).
  { eapply Forall_impl; [exact Hb |]. simpl. intros; lia. }
  destruct c; try (split; [exact Hrest | exact Hs]).
  destruct (Create_Scheme_succeeds _ _ _) eqn:Hok;
    [| split; [exact Hrest | exact Hs]].
  simpl in Hstep.
  destruct (Create_Scheme_success _ comm failure_domain _ _ g Hok) as [Hr Hg].
  rewrite Hstep in Hr, Hg. simpl in Hr, Hg.
  split.
  - constructor; [lia | exact Hrest].
  - constructor; [exact Hs |].
    eapply Forall_impl; [exact Hb |]. simpl. intros; lia.
Qed.

Lemma set_ids_increase cs g :
  Forall (λ i, er_set_counter g < i <= er_set_counter g + Z.of_nat (length cs))
         (set_ids cs g) ∧
  StronglySorted Z.lt (set_ids cs g).
Proof.
  revert g. induction cs as [| c cs IH]; intros g; simpl.
  { split; constructor. }
  pose proof (step_counters c g) as [_ Hc].
  destruct (step c g) as [r g'] eqn:Hstep. simpl in Hc.
  destruct (IH g') as [Hb Hs].
  assert (Hrest : Forall (λ i, er_set_counter g < i <=
                               er_set_counter g + Z.of_nat (S (length cs)))
                         (set_ids cs g')).
  { eapply Forall_impl; [exact Hb |]. simpl. intros; lia. }
  destruct c; try (split; [exact Hrest | exact Hs]).
  destruct (Create_succeeds _ _ _ _) eqn:Hok;
    [| split; [exact Hrest | exact Hs]].
  simpl in Hstep.
  destruct (Create_success comm_world0 comm_store0 _ _ _ g Hok) as [Hr Hg].
  rewrite Hstep in Hr, Hg. simpl in Hr, Hg.
  split.
  - constructor; [lia | exact Hrest].
  - constructor; [exact Hs |].
    eapply Forall_impl; [exact Hb |]. simpl. intros; lia.
Qed.

Lemma StronglySorted_lt_NoDup (l : list Z) : StronglySorted Z.lt l -> NoDup l.
Proof.
  induction 1 as [| x l _ IH Hx]; constructor; [| done].
  intros Hin. rewrite Forall_forall in Hx. specialize (Hx x Hin). lia.
Qed.

(** C8.  In a run of registry calls from the start of the process, short
    enough for the counters to stay within [int], the ids returned by the
    successful [ER_Create_Scheme] calls are at least 1 and strictly
    increasing, hence never repeated, whatever calls fail or free handles
    in between; likewise for [ER_Create]. *)
Theorem C8_ids_strictly_increase (cs : list api_call) :
  Z.of_nat (length cs) <= INT_MAX ->
  (StronglySorted Z.lt (scheme_ids cs er_start) ∧
   NoDup (scheme_ids cs er_start) ∧
   Forall (λ i, 1 <= i <= INT_MAX) (scheme_ids cs er_start)) ∧
  (StronglySorted Z.lt (set_ids cs er_start) ∧
   NoDup (set_ids cs er_start) ∧
   Forall (λ i, 1 <= i <= INT_MAX) (set_ids cs er_start)).
Proof.
  intros Hlen.
  destruct (scheme_ids_increase cs er_start) as [Hb1 Hs1].
  destruct (set_ids_increase cs er_start) as [Hb2 Hs2].
  simpl in Hb1, Hb2.
  repeat split; auto using StronglySorted_lt_NoDup;
    (eapply Forall_impl; [eassumption |]); simpl; intros; lia.
Qed.

Lemma C8_witness :
  Z.of_nat (length mixed_run) <= INT_MAX ∧
  scheme_ids mixed_run er_start = [1; 2] ∧
  set_ids mixed_run er_start = [2] ∧
  StronglySorted Z.lt (scheme_ids mixed_run er_start) ∧
  StronglySorted Z.lt (set_ids mixed_run er_start).
Proof.
  assert (H : Z.of_nat (length mixed_run) <= INT_MAX)
    by (unfold INT_MAX; simpl; lia).
  destruct (C8_ids_strictly_increase mixed_run H) as [[H1 _] [H2 _]].
  repeat split; try assumption.
Defined.

(** ** Files of a set *)

Lemma remove_dups_NoDup (l : list string) : NoDup l -> remove_dups l = l.
Proof.
  induction 1 as [| x l Hx _ IH]; simpl; [done |].
  destruct (decide_rel elem_of x l); [done | by rewrite IH].
Qed.

Lemma remove_dups_app_dup (xs h : list string) p :
  p ∈ h -> remove_dups (xs ++ p :: h) = remove_dups (xs ++ h).
Proof.
  intros Hp. induction xs as [| x xs IH]; simpl.
  - by destruct (decide_rel elem_of p h).
  - rewrite IH.
    destruct (decide_rel elem_of x (xs ++ p :: h)%list) as [H1 | H1],
             (decide_rel elem_of x (xs ++ h)%list) as [H2 | H2]; try done.
    + exfalso. apply H2, elem_of_app.
      apply elem_of_app in H1 as [? | [-> | ?]%elem_of_cons]; auto.
    + exfalso. apply H1, elem_of_app.
      apply elem_of_app in H2 as [? | ?]; [by left | right; by right].
Qed.

Lemma kvtree_set_kv_NoDup h key : NoDup h -> NoDup (kvtree_set_kv h key).
Proof.
  intros Hh. unfold kvtree_set_kv. case_decide; [done | by constructor].
Qed.

(** A hash that received the keys [keys] in turn: one element per key,
    the key linked last at the head. *)
Lemma kvtree_set_kv_foldl keys h :
  NoDup h -> foldl kvtree_set_kv h keys = remove_dups (rev keys ++ h).
Proof.
  revert h. induction keys as [| k keys IH]; intros h Hh; simpl.
  - by rewrite remove_dups_NoDup.
  - rewrite IH by by apply kvtree_set_kv_NoDup.
    rewrite <- app_assoc. simpl. unfold kvtree_set_kv.
    case_decide; [by rewrite remove_dups_app_dup | done].
Qed.

Lemma ER_Add_found set_id set path g :
  kvtree_get_kv_int (er_sets g) set_id = Some set ->
  path ≠ "" ->
  let set' := SetRec (NAME set) (DIRECTION set) (STRUCT set) (SCHEME set)
                     (kvtree_set_kv (FILE set) path) in
  ER_Add set_id (Some path) g =
    (ER_SUCCESS, with_sets g (insert set_id set' <$> er_sets g)) ∧
  kvtree_get_kv_int (er_sets (ER_Add set_id (Some path) g).2) set_id = Some set'.
Proof.
  intros Hset Hpath set'. unfold ER_Add. simpl.
  rewrite bool_decide_eq_false_2 by done. rewrite Hset. fold set'.
  split; [done |]. simpl.
  unfold kvtree_get_kv_int in *. destruct (er_sets g) as [m |]; [| done].
  simpl. apply lookup_insert_eq.
Qed.

Lemma add_all_found set_id paths : ∀ set g,
  kvtree_get_kv_int (er_sets g) set_id = Some set ->
  Forall (λ p, p ≠ "") paths ->
  kvtree_get_kv_int (er_sets (add_all set_id paths g)) set_id =
    Some (SetRec (NAME set) (DIRECTION set) (STRUCT set) (SCHEME set)
                 (foldl kvtree_set_kv (FILE set) paths)).
Proof.
  induction paths as [| p paths IH]; intros set g Hset Hne; simpl.
  - rewrite Hset. by destruct set.
  - apply Forall_cons in Hne as [Hp Hne].
    destruct (ER_Add_found set_id set p g Hset Hp) as [_ Hset'].
    unfold add_all in *. simpl. by rewrite (IH _ _ Hset' Hne).
Qed.

(** C9, as amended.  For an existing set and a non-empty path, [ER_Add]
    returns ER_SUCCESS and the set's FILE hash then holds the path exactly
    once: a path that is not there yet becomes a new element at the head
    of the hash, a path that is already there leaves the hash as it is;
    the other keys of the set are untouched.  So after the paths [paths]
    were added to a set without files, the hash lists the distinct paths,
    the one added last first.  An ENCODE dispatch passes the elements of
    the hash, in that order, to the codec's apply.  With a NULL or empty
    path [ER_Add] returns ER_FAILURE and changes nothing. *)
Theorem C9_Add_links_each_path_once set_id set g :
  kvtree_get_kv_int (er_sets g) set_id = Some set ->
  (∀ path, path ≠ "" ->
     (ER_Add set_id (Some path) g).1 = ER_SUCCESS ∧
     kvtree_get_kv_int (er_sets (ER_Add set_id (Some path) g).2) set_id =
       Some (SetRec (NAME set) (DIRECTION set) (STRUCT set) (SCHEME set)
                    (if decide (path ∈ FILE set) then FILE set
                     else path :: FILE set)))
  ∧ (∀ paths, FILE set = [] -> Forall (λ p, p ≠ "") paths ->
       files_of (add_all set_id paths g) set_id = remove_dups (rev paths))
  ∧ (∀ C me w scheme_id d,
       DIRECTION set = ER_DIRECTION_ENCODE ->
       SCHEME set = Some scheme_id ->
       kvtree_get_kv_int (er_schemes g) scheme_id = Some d ->
       let redset_path := build_redset_path (metadata_path (NAME set)) me in
       dispatch_trace C me g set_id w !! 1%nat =
         Some (EvRedsetApply (FILE set) redset_path d
                             (redset_apply C (FILE set) redset_path d)))
  ∧ ER_Add set_id None g = (ER_FAILURE, g)
  ∧ ER_Add set_id (Some "") g = (ER_FAILURE, g).
Proof.
  intros Hset. repeat split.
  - by destruct (ER_Add_found set_id set path g Hset H) as [-> _].
  - by destruct (ER_Add_found set_id set path g Hset H) as [_ ->].
  - intros paths Hnil Hne. unfold files_of.
    rewrite (add_all_found _ _ _ _ Hset Hne). simpl.
    rewrite kvtree_set_kv_foldl, Hnil, app_nil_r; [done |].
    rewrite Hnil. constructor.
  - intros C me w scheme_id d Hdir Hsid Hd redset_path.
    unfold dispatch_trace, dispatch, ER_Dispatch.
    rewrite Hset, Hdir, Hsid. simpl. rewrite Hd. simpl.
    rewrite er_encode_run. fold redset_path. by destruct (_ && _).
Qed.

(** "data.1" added to the set that holds "data.0". *)
Lemma C9_witness :
  (ER_Add 1 (Some "data.1") g_encode).1 = ER_SUCCESS ∧
  files_of (ER_Add 1 (Some "data.1") g_encode).2 1 = ["data.1"; "data.0"].
Proof.
  destruct (C9_Add_links_each_path_once 1 _ g_encode eq_refl) as (H & _).
  destruct (H "data.1") as [Hrc Hset]; [done |].
  split; [exact Hrc |]. unfold files_of. by rewrite Hset.
Defined.

(** C9 as stated fails: a path added a second time is not appended. *)
Lemma C9_counterexample_path_added_twice :
  let g := add_all 1 ["data.0"; "data.1"] g_no_file in
  ¬ ((ER_Add 1 (Some "data.0") g).1 = ER_SUCCESS ∧
     files_of (ER_Add 1 (Some "data.0") g).2 1
     = (files_of g 1 ++ ["data.0"])%list).
Proof. intros g [_ H]. vm_compute in H. discriminate H. Qed.

(** Nor do the files come out in the order added: "data.0", then "data.1". *)
Example add_all_order :
  files_of (add_all 1 ["data.0"; "data.1"] g_no_file) 1 = ["data.1"; "data.0"].
Proof. reflexivity. Qed.


(** * Further properties *)

(** ** State file: agreement and read after write *)

Lemma first_non_null_unique (states : list Z) i s i' s' :
  states !! i = Some s -> s ≠ ER_STATE_NULL ->
  (∀ j s0, (j < i)%nat -> states !! j = Some s0 -> s0 = ER_STATE_NULL) ->
  states !! i' = Some s' -> s' ≠ ER_STATE_NULL ->
  (∀ j s0, (j < i')%nat -> states !! j = Some s0 -> s0 = ER_STATE_NULL) ->
  s = s'.
Proof.
  intros Hi Hs Hlow Hi' Hs' Hlow'.
  destruct (lt_eq_lt_dec i i') as [[Hlt | ->] | Hlt].
  - exfalso. apply Hs. by apply (Hlow' i).
  - congruence.
  - exfalso. apply Hs'. by apply (Hlow i').
Qed.

(** X1.  The value [er_state_read] returns does not depend on the rank
    that asks: all the processes of the world leave the read with the same
    state. *)
Theorem er_state_read_same_at_every_rank (w : list proc) (me me' : nat)
  (path : string) :
  er_state_read w me path = er_state_read w me' path.
Proof.
  destruct (er_state_read_spec w me path) as [(i & s & Hi & Hs & Hlow & ->) | [Hall ->]];
    destruct (er_state_read_spec w me' path)
      as [(i' & s' & Hi' & Hs' & Hlow' & ->) | [Hall' ->]]; try done.
  - eapply first_non_null_unique; eauto.
  - exfalso. apply Hs. eapply Forall_lookup_1 in Hall'; eauto.
  - exfalso. apply Hs'. eapply Forall_lookup_1 in Hall; eauto.
Qed.

Lemma er_state_read_all_null w me path :
  Forall (λ p, local_state (build_er_path path) p = ER_STATE_NULL) w ->
  er_state_read w me path = ER_STATE_NULL.
Proof.
  intros Hall.
  destruct (er_state_read_spec w me path) as [(i & s & Hi & Hs & _ & _) | [_ ->]];
    [| done].
  exfalso. apply list_lookup_fmap_Some_1 in Hi as (p & -> & Hp).
  apply Hs. eapply Forall_lookup_1 in Hall; eauto.
Qed.

(** The read after a write that took effect, leader or not. *)
Lemma er_state_read_after_write_aux fs (w : list proc) (me : nat)
  (path : string) (state : Z) :
  writes_take_effect fs (build_er_path path) ->
  er_state_read (er_state_write fs w path state) me path =
  if has_leader w then state else ER_STATE_NULL.
Proof.
  intros Hw. unfold has_leader. destruct (existsb is_leader w) eqn:Hl.
  - destruct (decide (state = ER_STATE_NULL)) as [-> | Hne].
    + apply er_state_read_all_null. apply Forall_forall. intros p Hp.
      apply (list_elem_of_fmap_2 (local_state (build_er_path path))) in Hp.
      rewrite (local_states_after_write fs w path _ Hw) in Hp.
      apply list_elem_of_fmap_1 in Hp as (q & -> & _). by destruct (is_leader q).
    + apply er_state_read_write; [done | done |].
      apply existsb_exists in Hl as (p & Hp & Hlead).
      exists p. split; [by apply list_elem_of_In | done].
  - apply er_state_read_all_null. apply Forall_forall. intros p Hp.
    apply (list_elem_of_fmap_2 (local_state (build_er_path path))) in Hp.
    rewrite (local_states_after_write fs w path _ Hw) in Hp.
    apply list_elem_of_fmap_1 in Hp as (q & -> & Hq).
    destruct (is_leader q) eqn:Hlead; [| done].
    assert (existsb is_leader w = true); [| congruence].
    apply existsb_exists. exists q. split; [by apply list_elem_of_In | done].
Qed.

(** X2.  Where the write of the state file takes effect (er.c does not
    look at the result of [kvtree_write_file]), a read that follows
    [er_state_write] returns the written state at every rank when the
    world has a storage-group leader, and NULL when it has none (nobody
    wrote, nobody reads). *)
Theorem er_state_read_after_write fs (w : list proc) (me : nat)
  (path : string) (state : Z) :
  writes_take_effect fs (build_er_path path) ->
  er_state_read (er_state_write fs w path state) me path =
  if has_leader w then state else ER_STATE_NULL.
Proof. apply er_state_read_after_write_aux. Qed.

Lemma er_state_read_after_write_witness :
  er_state_read (er_state_write reliable three_ranks "ckpt.er" ER_STATE_CORRUPT)
                1%nat "ckpt.er"
  = ER_STATE_CORRUPT.
Proof.
  exact (er_state_read_after_write reliable three_ranks 1%nat "ckpt.er"
           ER_STATE_CORRUPT (reliable_writes _)).
Defined.

(** Where no state file can be written, the encode still returns
    ER_SUCCESS, and the read that follows finds NULL. *)
Example encode_on_unwritable_storage :
  let C := answering_on unwritable true true true true true in
  dispatch_rc C 0%nat g_encode 1 three_ranks = ER_SUCCESS ∧
  er_state_read (dispatch_world C 0%nat g_encode 1 three_ranks) 0%nat "ckpt.er"
  = ER_STATE_NULL.
Proof. split; reflexivity. Qed.

(** ** Invariants of the registries *)

Lemma ids_within_None {A} c : ids_within (@None (gmap Z A)) c.
Proof. intros m id H. discriminate H. Qed.

Lemma ids_within_empty {A} c : ids_within (Some (∅ : gmap Z A)) c.
Proof. intros m id [= <-] [x Hx]. by rewrite lookup_empty in Hx. Qed.

Lemma ids_within_mono {A} (t : option (gmap Z A)) c c' :
  c <= c' -> ids_within t c -> ids_within t c'.
Proof. intros Hle H m id Hm Hid. specialize (H m id Hm Hid). lia. Qed.

Lemma ids_within_delete {A} (t : option (gmap Z A)) c id :
  ids_within t c -> ids_within (kvtree_unset_kv_int t id) c.
Proof.
  intros H m i Hm [x Hx]. destruct t as [m0 |]; simplify_eq/=.
  apply lookup_delete_Some in Hx as [_ Hx]. eapply H; eauto.
Qed.

Lemma ids_within_insert {A} (t : option (gmap Z A)) c id x :
  1 <= id <= c -> ids_within t c -> ids_within (insert id x <$> t) c.
Proof.
  intros Hid H m i Hm [y Hy]. destruct t as [m0 |]; simplify_eq/=.
  apply lookup_insert_Some in Hy as [[<- _] | [_ Hy]]; [done |].
  eapply H; eauto.
Qed.

(** The next id is not in use. *)
Lemma ids_within_fresh {A} (t : option (gmap Z A)) c :
  ids_within t c -> kvtree_get_kv_int t (c + 1) = None.
Proof.
  intros H. destruct t as [m |]; simpl; [| done].
  destruct (m !! (c + 1)) as [x |] eqn:Hx; [| done].
  specialize (H m (c + 1) eq_refl (ex_intro _ x Hx)). lia.
Qed.

Lemma null_or_empty_false name :
  null_or_empty name = false -> ∃ n, name = Some n ∧ n ≠ "".
Proof.
  destruct name as [n |]; simpl; [| done].
  intros H%bool_decide_eq_false. eauto.
Qed.

Lemma ER_Create_Scheme_wf ok comm fd D E g :
  registries_wf g -> registries_wf (ER_Create_Scheme ok comm fd D E g).2.
Proof.
  intros (Hc & Hc' & Hs & Hs' & Hwf). unfold ER_Create_Scheme.
  destruct (D <? 1); [done |].
  destruct (encoding_type_of D E); [| done].
  destruct ok; [| done]. simpl.
  split_wf; try lia; try done.
  apply ids_within_insert; [lia |]. eapply ids_within_mono; [| exact Hs]. lia.
Qed.

Lemma ER_Free_Scheme_wf ok id g :
  registries_wf g -> registries_wf (ER_Free_Scheme ok id g).2.
Proof.
  intros (Hc & Hc' & Hs & Hs' & Hwf). unfold ER_Free_Scheme.
  destruct (kvtree_get_kv_int (er_schemes g) id); [| done]. simpl.
  split_wf; try done. by apply ids_within_delete.
Qed.

Lemma ER_Create_wf cw cs name dir sid g :
  registries_wf g -> registries_wf (ER_Create cw cs name dir sid g).2.
Proof.
  intros (Hc & Hc' & Hs & Hs' & Hwf). unfold ER_Create.
  destruct (null_or_empty name) eqn:Hname; [done |].
  destruct (valid_direction dir) eqn:Hdir; [| done]. simpl.
  apply null_or_empty_false in Hname as (n & -> & Hn).
  rewrite (ids_within_fresh _ _ Hs'). simpl.
  set (set := SetRec _ _ _ _ _).
  assert (Hset : set_wf set).
  { subst set. split; [done |]. split; [done |]. split; simpl; [| constructor].
    destruct (Z.eqb_spec dir ER_DIRECTION_ENCODE) as [He | He].
    - split; [eauto | done].
    - split; [done | intros [x Hx]; discriminate Hx]. }
  assert (Hin : ids_within (insert (er_set_counter g + 1) set <$> er_sets g)
                           (er_set_counter g + 1)).
  { apply ids_within_insert; [lia |]. eapply ids_within_mono; [| exact Hs']. lia. }
  assert (Hrec : ∀ m id s, insert (er_set_counter g + 1) set <$> er_sets g = Some m ->
                           m !! id = Some s -> set_wf s).
  { intros m id s Hm Hid. destruct (er_sets g) as [m0 |] eqn:E; simplify_eq/=.
    apply lookup_insert_Some in Hid as [[_ <-] | [_ Hid]]; [done |].
    eapply Hwf; eauto. }
  destruct (_ =? ER_SUCCESS); split_wf; try lia; try done.
  - by apply ids_within_delete.
  - intros m id s Hm Hid. unfold kvtree_unset_kv_int in Hm.
    destruct (insert _ _ <$> er_sets g) as [m1 |] eqn:E; simplify_eq/=.
    apply lookup_delete_Some in Hid as [_ Hid]. eapply Hrec; eauto.
Qed.

Lemma ER_Add_wf id file g :
  registries_wf g -> registries_wf (ER_Add id file g).2.
Proof.
  intros (Hc & Hc' & Hs & Hs' & Hwf). unfold ER_Add.
  destruct (null_or_empty file); [done |].
  destruct (kvtree_get_kv_int (er_sets g) id) as [set |] eqn:Hset; [| done].
  unfold kvtree_get_kv_int in Hset.
  destruct (er_sets g) as [m0 |] eqn:E; simplify_eq/=.
  split_wf; try done.
  - apply (ids_within_insert (Some m0)); [| done].
    apply (Hs' m0 id eq_refl). eauto.
  - intros m i s [= <-] Hi.
    apply lookup_insert_Some in Hi as [[_ <-] | [_ Hi]]; [| by eapply Hwf].
    destruct (Hwf m0 id set eq_refl Hset) as (? & ? & ? & ?).
    split; [done |]. split; [done |]. split; [done |]. simpl.
    by apply kvtree_set_kv_NoDup.
Qed.

Lemma ER_Free_wf id g : registries_wf g -> registries_wf (ER_Free id g).2.
Proof.
  intros (Hc & Hc' & Hs & Hs' & Hwf). unfold ER_Free.
  split_wf; try done; [by apply ids_within_delete |].
  intros m i s Hm Hi. unfold kvtree_unset_kv_int in Hm.
  destruct (er_sets g) as [m0 |] eqn:E; simplify_eq/=.
  apply lookup_delete_Some in Hi as [_ Hi]. by eapply Hwf.
Qed.

Lemma step_wf c g : registries_wf g -> registries_wf (step c g).2.
Proof.
  intros H. destruct c; simpl.
  - destruct H as (Hc & Hc' & _). unfold ER_Init.
    split_wf; try done; [apply ids_within_empty | apply ids_within_empty |].
    intros m id s [= <-] Hid. by rewrite lookup_empty in Hid.
  - destruct H as (Hc & Hc' & _). unfold ER_Finalize.
    split_wf; try done; apply ids_within_None.
  - by apply ER_Create_Scheme_wf.
  - by apply ER_Free_Scheme_wf.
  - by apply ER_Create_wf.
  - by apply ER_Add_wf.
  - by apply ER_Free_wf.
Qed.

Lemma run_wf cs : ∀ g, registries_wf g -> registries_wf (run cs g).
Proof.
  induction cs as [| c cs IH]; intros g H; simpl; [done |].
  apply IH. by apply step_wf.
Qed.

Lemma er_start_wf : registries_wf er_start.
Proof.
  split_wf; try done; try apply ids_within_None.
Qed.

Lemma run_counters cs : ∀ g,
  er_scheme_counter (run cs g) <= er_scheme_counter g + Z.of_nat (length cs) ∧
  er_set_counter (run cs g) <= er_set_counter g + Z.of_nat (length cs).
Proof.
  induction cs as [| c cs IH]; intros g; simpl; [lia |].
  pose proof (step_counters c g) as [H1 H2].
  destruct (IH (step c g).2) as [H3 H4]. lia.
Qed.

(** X4.  After any run of fewer than INT_MAX registry calls from the start
    of the process (so that no counter leaves the range of [int]), in
    whatever order and with whatever outcome, the counters are below
    INT_MAX, the registered scheme ids and set ids lie between 1 and the
    respective counter (so the next id is not in use), and every
    registered set has a non-empty name, one of the three directions, a
    scheme id exactly when it is an ENCODE set, and a file hash without
    repeated paths. *)
Theorem registries_wf_always (cs : list api_call) :
  Z.of_nat (length cs) < INT_MAX ->
  let g := run cs er_start in
  registries_wf g ∧
  er_scheme_counter g < INT_MAX ∧ er_set_counter g < INT_MAX ∧
  kvtree_get_kv_int (er_schemes g) (er_scheme_counter g + 1) = None ∧
  kvtree_get_kv_int (er_sets g) (er_set_counter g + 1) = None.
Proof.
  intros Hlen g. subst g.
  pose proof (run_wf cs er_start er_start_wf) as H.
  pose proof (run_counters cs er_start) as [Hc Hc']. simpl in Hc, Hc'.
  split; [exact H |].
  destruct H as (_ & _ & Hs & Hs' & _).
  split; [lia |]. split; [lia |].
  split; by apply ids_within_fresh.
Qed.

Lemma registries_wf_always_witness :
  registries_wf (run mixed_run er_start) ∧
  kvtree_get_kv_int (er_sets (run mixed_run er_start)) 3 = None.
Proof.
  assert (H : Z.of_nat (length mixed_run) < INT_MAX)
    by (unfold INT_MAX; simpl; lia).
  destruct (registries_wf_always mixed_run H) as (Hwf & _ & _ & _ & Hfresh).
  split; [exact Hwf | exact Hfresh].
Defined.

(** ** Set registry: what [ER_Create] returns and records *)

(** X5.  A rejected [ER_Create] leaves both registries as they were.  With
    a NULL or empty name, or a direction outside the three constants, it
    returns ER_FAILURE (which is 1, not -1) and keeps the counter; with
    direction ENCODE and a scheme id that is not registered it returns -1
    and has consumed a set id all the same. *)
Theorem ER_Create_rejected cw cs name dir sid g :
  kvtree_get_kv_int (er_sets g) (er_set_counter g + 1) = None ->
  Create_succeeds name dir sid g = false ->
  let invalid := null_or_empty name || negb (valid_direction dir) in
  let r := ER_Create cw cs name dir sid g in
  r.1 = (if invalid then ER_FAILURE else -1) ∧
  er_set_counter r.2 =
    (if invalid then er_set_counter g else er_set_counter g + 1) ∧
  er_sets r.2 = er_sets g ∧
  er_schemes r.2 = er_schemes g ∧
  er_scheme_counter r.2 = er_scheme_counter g.
Proof.
  intros Hfresh Hfail invalid r. subst invalid r.
  unfold Create_succeeds in Hfail. unfold ER_Create.
  destruct (null_or_empty name); simpl in *; [done |].
  destruct (valid_direction dir); simpl in *; [| done].
  destruct (dir =? ER_DIRECTION_ENCODE); simpl in *; [| done].
  apply bool_decide_eq_false in Hfail.
  destruct (kvtree_get_kv_int (er_schemes g) sid) as [d |]; [by destruct Hfail |].
  simpl. repeat split.
  unfold kvtree_get_kv_int, kvtree_unset_kv_int in *.
  destruct (er_sets g) as [m |]; simpl in *; [| done].
  by rewrite delete_insert_id.
Qed.

(** An ENCODE set on a scheme id that was never handed out. *)
Lemma ER_Create_rejected_witness :
  (ER_Create 0%nat 1%nat (Some "ckpt") ER_DIRECTION_ENCODE 7 g_one_scheme).1 = -1 ∧
  er_set_counter
    (ER_Create 0%nat 1%nat (Some "ckpt") ER_DIRECTION_ENCODE 7 g_one_scheme).2 = 1 ∧
  er_sets (ER_Create 0%nat 1%nat (Some "ckpt") ER_DIRECTION_ENCODE 7 g_one_scheme).2
  = er_sets g_one_scheme.
Proof.
  destruct (ER_Create_rejected 0%nat 1%nat (Some "ckpt") ER_DIRECTION_ENCODE 7
                               g_one_scheme eq_refl eq_refl)
    as (Hr & Hc & Hs & _).
  split; [exact Hr | split; [exact Hc | exact Hs]].
Defined.

(** X6.  An accepted [ER_Create] on an initialised registry whose next id
    is free returns that id and records, under it, the name, the
    direction, the two communicators, the scheme id when the direction is
    ENCODE and none otherwise, and an empty file hash; the other sets, the
    schemes and the scheme counter are as before. *)
Theorem ER_Create_registers cw cs n dir sid g m :
  er_sets g = Some m ->
  m !! (er_set_counter g + 1) = None ->
  Create_succeeds (Some n) dir sid g = true ->
  let set_id := er_set_counter g + 1 in
  ER_Create cw cs (Some n) dir sid g =
  (set_id,
   Globals (er_scheme_counter g) set_id (er_schemes g)
           (Some (<[set_id :=
                      SetRec n dir (Erset cw cs)
                             (if dir =? ER_DIRECTION_ENCODE then Some sid else None)
                             []]> m))).
Proof.
  intros Hm Hfresh Hok set_id. subst set_id.
  unfold Create_succeeds in Hok. unfold ER_Create.
  apply andb_prop in Hok as [[Hn Hd]%andb_prop Hs].
  apply negb_true_iff in Hn. rewrite Hn, Hd. simpl.
  rewrite Hm. simpl. rewrite Hfresh. simpl.
  destruct (dir =? ER_DIRECTION_ENCODE); simpl in *; [| done].
  apply bool_decide_eq_true in Hs as [d Hs]. by rewrite Hs.
Qed.

Lemma ER_Create_registers_witness :
  kvtree_get_kv_int
    (er_sets (ER_Create 0%nat 1%nat (Some "ckpt") ER_DIRECTION_REBUILD 0
                        g_one_scheme).2) 1
  = Some (SetRec "ckpt" ER_DIRECTION_REBUILD (Erset 0%nat 1%nat) None []).
Proof.
  rewrite (ER_Create_registers 0%nat 1%nat "ckpt" ER_DIRECTION_REBUILD 0
                               g_one_scheme ∅ eq_refl eq_refl eq_refl).
  reflexivity.
Defined.

(** ** Scheme registry: the life of a scheme *)

Lemma encoding_type_of_supported D E :
  supported D E -> encoding_type_of D E = Some (variant_of D E).
Proof.
  unfold supported, encoding_type_of, variant_of. intros H.
  destruct (Z.eqb_spec E 0).
  { by rewrite bool_decide_eq_true_2. }
  rewrite bool_decide_eq_false_2 by done.
  destruct (Z.eqb_spec D E).
  { by rewrite bool_decide_eq_true_2. }
  rewrite bool_decide_eq_false_2 by congruence.
  destruct (Z.eqb_spec E 1); [done | lia].
Qed.

(** X7.  On an initialised registry whose next id is free, a scheme
    created for a supported pair is found under the returned id with the
    variant of the table (SINGLE for E = 0, PARTNER for E = D, so also for
    (1, 1), XOR otherwise), and a set can be bound to it.  Freeing it
    returns ER_SUCCESS or ER_FAILURE as the codec's delete reports, and in
    both cases puts the scheme registry back to what it was before the
    creation. *)
Theorem scheme_created_then_freed comm fd D E g m delete_ok :
  supported D E ->
  er_schemes g = Some m ->
  m !! (er_scheme_counter g + 1) = None ->
  let created := ER_Create_Scheme true comm fd D E g in
  let freed := ER_Free_Scheme delete_ok created.1 created.2 in
  created.1 = er_scheme_counter g + 1 ∧
  kvtree_get_kv_int (er_schemes created.2) created.1 =
    Some (Redset (variant_of D E) comm fd) ∧
  (∀ n, n ≠ "" ->
     Create_succeeds (Some n) ER_DIRECTION_ENCODE created.1 created.2 = true) ∧
  freed.1 = (if delete_ok then ER_SUCCESS else ER_FAILURE) ∧
  er_schemes freed.2 = er_schemes g ∧
  er_sets freed.2 = er_sets g.
Proof.
  intros Hsup Hm Hfresh created freed. subst freed created.
  pose proof (proj1 (supported_iff D E) Hsup) as [HD _].
  unfold ER_Create_Scheme.
  destruct (Z.ltb_spec D 1); [lia |].
  rewrite (encoding_type_of_supported D E Hsup). simpl. rewrite Hm. simpl.
  assert (Hlook : kvtree_get_kv_int
                    (Some (<[er_scheme_counter g + 1 :=
                               Redset (variant_of D E) comm fd]> m))
                    (er_scheme_counter g + 1)
                  = Some (Redset (variant_of D E) comm fd)).
  { simpl. apply lookup_insert_eq. }
  split; [done |]. split; [exact Hlook |]. split.
  { intros n Hn. unfold Create_succeeds. simpl.
    rewrite bool_decide_eq_false_2 by done. simpl.
    apply bool_decide_eq_true. rewrite lookup_insert_eq. eauto. }
  unfold ER_Free_Scheme, kvtree_get_kv_int. simpl.
  rewrite lookup_insert_eq. simpl.
  split; [done |]. split; [| done].
  by rewrite delete_insert_id.
Qed.

(** CreateScheme(1, 1) after ER_Init: PARTNER, then freed. *)
Lemma scheme_created_then_freed_witness :
  let g := (ER_Init true true er_start).2 in
  kvtree_get_kv_int (er_schemes (ER_Create_Scheme true 0%nat None 1 1 g).2) 1
  = Some (Redset REDSET_COPY_PARTNER 0%nat None) ∧
  er_schemes (ER_Free_Scheme false 1 (ER_Create_Scheme true 0%nat None 1 1 g).2).2
  = Some ∅.
Proof.
  intros g.
  destruct (scheme_created_then_freed 0%nat None 1 1 g ∅ false)
    as (_ & Hl & _ & _ & Hs & _).
  - right. left. done.
  - reflexivity.
  - reflexivity.
  - split; [exact Hl | exact Hs].
Defined.

(** X8.  [ER_Free_Scheme] of a registered id drops the record whether or
    not the codec's delete succeeds: the id is no longer found, the other
    schemes and all the sets are untouched, and freeing the id again
    returns ER_FAILURE. *)
Theorem ER_Free_Scheme_drops_record ok ok' scheme_id d g :
  kvtree_get_kv_int (er_schemes g) scheme_id = Some d ->
  let freed := ER_Free_Scheme ok scheme_id g in
  freed.1 = (if ok then ER_SUCCESS else ER_FAILURE) ∧
  kvtree_get_kv_int (er_schemes freed.2) scheme_id = None ∧
  (∀ id, id ≠ scheme_id ->
     kvtree_get_kv_int (er_schemes freed.2) id =
     kvtree_get_kv_int (er_schemes g) id) ∧
  er_sets freed.2 = er_sets g ∧
  ER_Free_Scheme ok' scheme_id freed.2 = (ER_FAILURE, freed.2).
Proof.
  intros Hd freed. subst freed.
  assert (Hfree : ER_Free_Scheme ok scheme_id g =
                  (if ok then ER_SUCCESS else ER_FAILURE,
                   with_schemes g (kvtree_unset_kv_int (er_schemes g) scheme_id))).
  { unfold ER_Free_Scheme. by rewrite Hd. }
  rewrite Hfree. cbn [fst snd with_schemes er_schemes er_sets].
  assert (Hgone : kvtree_get_kv_int
                    (kvtree_unset_kv_int (er_schemes g) scheme_id) scheme_id
                  = None).
  { unfold kvtree_get_kv_int, kvtree_unset_kv_int.
    destruct (er_schemes g) as [m |]; simpl; [| done]. apply lookup_delete_eq. }
  split; [done |]. split; [exact Hgone |]. split.
  { intros id Hne. unfold kvtree_get_kv_int, kvtree_unset_kv_int.
    destruct (er_schemes g) as [m |]; simpl; [| done].
    by apply lookup_delete_ne. }
  split; [done |].
  unfold ER_Free_Scheme, with_schemes. cbn [er_schemes]. by rewrite Hgone.
Qed.

Lemma ER_Free_Scheme_drops_record_witness :
  (ER_Free_Scheme false 1 g_one_scheme).1 = ER_FAILURE ∧
  kvtree_get_kv_int (er_schemes (ER_Free_Scheme false 1 g_one_scheme).2) 1 = None.
Proof.
  destruct (ER_Free_Scheme_drops_record false true 1 _ g_one_scheme eq_refl)
    as (Hrc & Hgone & _).
  split; [exact Hrc | exact Hgone].
Defined.

(** ** Dispatch: handles that no longer resolve *)

(** X9.  On the registries as [ER_Free] of a set id left them, a dispatch
    on that id, whatever the set was and whether or not it existed,
    returns ER_FAILURE and has no effect at all: no state write, no
    collaborator call.  So does a dispatch on an ENCODE set on the
    registries as [ER_Free_Scheme] of its scheme left them, whatever
    [redset_delete] reported. *)
Theorem Dispatch_on_freed_handles C me g set_id s :
  ER_Dispatch C me (ER_Free set_id g).2 set_id s = (ER_FAILURE, s) ∧
  (∀ set scheme_id ok,
     kvtree_get_kv_int (er_sets g) set_id = Some set ->
     DIRECTION set = ER_DIRECTION_ENCODE ->
     SCHEME set = Some scheme_id ->
     ER_Dispatch C me (ER_Free_Scheme ok scheme_id g).2 set_id s
     = (ER_FAILURE, s)).
Proof.
  split.
  - unfold ER_Dispatch, ER_Free. simpl.
    unfold kvtree_get_kv_int, kvtree_unset_kv_int.
    destruct (er_sets g) as [m |]; simpl; [| done].
    by rewrite lookup_delete_eq.
  - intros set scheme_id ok Hset Hdir Hsid.
    assert (Hsets : er_sets (ER_Free_Scheme ok scheme_id g).2 = er_sets g).
    { unfold ER_Free_Scheme. by destruct (kvtree_get_kv_int (er_schemes g) _). }
    assert (Hgone : kvtree_get_kv_int
                      (er_schemes (ER_Free_Scheme ok scheme_id g).2) scheme_id
                    = None).
    { unfold ER_Free_Scheme.
      destruct (kvtree_get_kv_int (er_schemes g) scheme_id) eqn:E; [| done].
      simpl. unfold kvtree_get_kv_int, kvtree_unset_kv_int.
      destruct (er_schemes g) as [m |]; simpl; [| done]. apply lookup_delete_eq. }
    unfold ER_Dispatch. rewrite Hsets, Hset, Hdir, Hsid. simpl.
    by rewrite Hgone.
Qed.

(** The REBUILD set of [g_rebuild] freed, the scheme of [g_encode] freed. *)
Lemma Dispatch_on_freed_handles_witness :
  ER_Dispatch (answering true true true true true) 0%nat
              (ER_Free 1 g_rebuild).2 1 (Sys three_ranks_encoded [])
  = (ER_FAILURE, Sys three_ranks_encoded []) ∧
  ER_Dispatch (answering true true true true true) 0%nat
              g_encode_scheme_freed 1 (Sys three_ranks [])
  = (ER_FAILURE, Sys three_ranks []).
Proof.
  split.
  - exact (proj1 (Dispatch_on_freed_handles
                    (answering true true true true true) 0%nat g_rebuild 1
                    (Sys three_ranks_encoded []))).
  - exact (proj2 (Dispatch_on_freed_handles
                    (answering true true true true true) 0%nat g_encode 1
                    (Sys three_ranks []))
                 _ 1 true eq_refl eq_refl eq_refl).
Defined.

(** ** Dispatch: outcomes of the encode and rebuild pipelines *)

Lemma existsb_is_leader_imap (f : nat -> proc -> proc) w :
  (∀ i p, is_leader (f i p) = is_leader p) ->
  existsb is_leader (imap f w) = existsb is_leader w.
Proof.
  revert f. induction w as [| p w IH]; intros f Hf; [done |].
  simpl. rewrite Hf. f_equal. apply IH. intros i q. apply Hf.
Qed.

Lemma has_leader_write fs w path state :
  has_leader (er_state_write fs w path state) = has_leader w.
Proof.
  unfold has_leader, er_state_write. apply existsb_is_leader_imap.
  intros i p. unfold write_local.
  destruct (is_leader p) eqn:E; [| done].
  by destruct (kvtree_write_file fs i _ state).
Qed.

Lemma has_leader_of_read w me path :
  er_state_read w me path ≠ ER_STATE_NULL -> has_leader w = true.
Proof.
  intros Hne. destruct (has_leader w) eqn:Hl; [done |].
  exfalso. apply Hne. apply er_state_read_all_null.
  apply Forall_forall. intros p Hp. unfold local_state.
  destruct (is_leader p) eqn:E; [| done].
  assert (has_leader w = true); [| congruence].
  apply existsb_exists. exists p. split; [by apply list_elem_of_In | done].
Qed.



Lemma er_rebuild_refuses C me path s :
  er_state_read (sys_world s) me path ≠ ER_STATE_ENCODED ->
  er_rebuild C me path s = (ER_FAILURE, s).
Proof.
  intros Hne. unfold er_rebuild, bind, state_read.
  by destruct (Z.eqb_spec (er_state_read (sys_world s) me path) ER_STATE_ENCODED).
Qed.

(** X11.  A REBUILD dispatch that finds the state ENCODED invokes migrate
    and then recover, and returns ER_SUCCESS exactly when recover
    succeeds, whatever migrate reported.  Where the writes of the state
    file take effect (their result is not looked at), every rank
    afterwards reads ENCODED when recover succeeded and CORRUPT when it
    failed. *)
Theorem rebuild_outcome C me g set_id set w :
  kvtree_get_kv_int (er_sets g) set_id = Some set ->
  DIRECTION set = ER_DIRECTION_REBUILD ->
  let path := metadata_path (NAME set) in
  er_state_read w me path = ER_STATE_ENCODED ->
  let redset_path := build_redset_path path me in
  let recovered := (redset_recover C redset_path).1 in
  let state := if recovered then ER_STATE_ENCODED else ER_STATE_CORRUPT in
  dispatch_rc C me g set_id w = (if recovered then ER_SUCCESS else ER_FAILURE) ∧
  dispatch_trace C me g set_id w =
    ([EvStateWrite (build_er_path path) ER_STATE_CORRUPT;
      EvShuffileMigrate (build_shuffile_path path)
                        (shuffile_migrate C (build_shuffile_path path));
      EvRedsetRecover redset_path recovered]
     ++ if recovered
        then [EvStateWrite (build_er_path path) ER_STATE_ENCODED]
        else [])%list ∧
  (writes_take_effect (storage C) (build_er_path path) ->
   ∀ me', er_state_read (dispatch_world C me g set_id w) me' path = state).
Proof.
  intros Hset Hdir path Hread redset_path recovered state.
  assert (Hl : has_leader w = true).
  { apply (has_leader_of_read w me path). by rewrite Hread. }
  unfold dispatch_rc, dispatch_trace, dispatch_world, dispatch, ER_Dispatch.
  rewrite Hset, Hdir. simpl. fold path.
  rewrite er_rebuild_run. rewrite Hread. simpl.
  fold redset_path recovered. subst state. destruct recovered; simpl.
  - split; [done |]. split; [done |]. intros Hw me'.
    rewrite er_state_read_after_write_aux by done.
    by rewrite has_leader_write, Hl.
  - split; [done |]. split; [done |]. intros Hw me'.
    rewrite er_state_read_after_write_aux by done.
    by rewrite Hl.
Qed.

(** Migrate fails, recover succeeds: the rebuild succeeds. *)
Lemma rebuild_outcome_witness :
  let C := answering true true false true true in
  dispatch_rc C 2%nat g_rebuild 1 three_ranks_encoded = ER_SUCCESS ∧
  er_state_read (dispatch_world C 2%nat g_rebuild 1 three_ranks_encoded)
                0%nat "ckpt.er" = ER_STATE_ENCODED.
Proof.
  intros C.
  destruct (rebuild_outcome C 2%nat g_rebuild 1 _ three_ranks_encoded
                            eq_refl eq_refl eq_refl)
    as (Hrc & _ & Hread).
  split; [exact Hrc | exact (Hread (reliable_writes _) 0%nat)].
Defined.

(** ** Dispatch: one dispatch after another *)

(** After a dispatch that ran its pipeline and failed, the world is the
    one the write of CORRUPT left. *)
Lemma failed_dispatch_world C me g set_id set w :
  kvtree_get_kv_int (er_sets g) set_id = Some set ->
  DIRECTION set = ER_DIRECTION_ENCODE ∨ DIRECTION set = ER_DIRECTION_REBUILD ->
  dispatch_rc C me g set_id w = ER_FAILURE ->
  dispatch_trace C me g set_id w ≠ [] ->
  dispatch_world C me g set_id w =
  er_state_write (storage C) w (metadata_path (NAME set)) ER_STATE_CORRUPT.
Proof.
  intros Hset Hdir.
  unfold dispatch_rc, dispatch_trace, dispatch_world, dispatch, ER_Dispatch.
  rewrite Hset. destruct Hdir as [Hdir | Hdir]; rewrite Hdir; simpl.
  - destruct (kvtree_get_kv_int (er_schemes g) _) as [d |]; [| done].
    destruct (SCHEME set); simpl; [| done].
    rewrite er_encode_run. by destruct (_ && _).
  - rewrite er_rebuild_run. destruct (negb _); [done |].
    by destruct (redset_recover _ _).1.
Qed.

(** X12.  When an ENCODE or REBUILD dispatch has run its pipeline and
    failed, in a world with a leader and with its write of CORRUPT having
    taken effect, the REBUILD dispatch of a set of the same name that
    comes next, on the storage as the failed dispatch left it, is refused:
    it returns ER_FAILURE and touches nothing, whatever its collaborators
    would answer. *)
Theorem rebuild_refused_after_failure C me g set_id set w C' me' g' set_id' set' :
  kvtree_get_kv_int (er_sets g) set_id = Some set ->
  DIRECTION set = ER_DIRECTION_ENCODE ∨ DIRECTION set = ER_DIRECTION_REBUILD ->
  dispatch_rc C me g set_id w = ER_FAILURE ->
  dispatch_trace C me g set_id w ≠ [] ->
  has_leader w = true ->
  writes_take_effect (storage C) (build_er_path (metadata_path (NAME set))) ->
  kvtree_get_kv_int (er_sets g') set_id' = Some set' ->
  DIRECTION set' = ER_DIRECTION_REBUILD ->
  NAME set' = NAME set ->
  ER_Dispatch C' me' g' set_id' (dispatch C me g set_id w).2 =
  (ER_FAILURE, (dispatch C me g set_id w).2).
Proof.
  intros Hset Hdir Hrc Htr Hl Hw Hset' Hdir' Hname.
  pose proof (failed_dispatch_world C me g set_id set w Hset Hdir Hrc Htr) as Hw'.
  unfold dispatch_world in Hw'.
  unfold ER_Dispatch. rewrite Hset', Hdir'. simpl.
  apply er_rebuild_refuses. rewrite Hname, Hw'.
  rewrite er_state_read_after_write_aux by done. by rewrite Hl.
Qed.

(** The encode fails in apply; the rebuild that follows is refused even
    though its recover would succeed. *)
Lemma rebuild_refused_after_failure_witness :
  let failed := dispatch (answering false true true true true) 0%nat
                         g_encode 1 three_ranks in
  ER_Dispatch (answering true true true true true) 0%nat g_rebuild 1 failed.2
  = (ER_FAILURE, failed.2).
Proof.
  intros failed. subst failed.
  eapply (rebuild_refused_after_failure
            (answering false true true true true) 0%nat g_encode 1).
  - reflexivity.
  - left. reflexivity.
  - reflexivity.
  - discriminate.
  - reflexivity.
  - apply reliable_writes.
  - reflexivity.
  - reflexivity.
  - reflexivity.
Defined.

(** X13.  Where the leaders' unlink of the state file takes effect (its
    result is not looked at), every rank reads the state NULL after a
    REMOVE dispatch, so the REBUILD dispatch of a set of the same name
    that comes next, on the storage as the removal left it, is refused:
    it returns ER_FAILURE and touches nothing. *)
Theorem rebuild_refused_after_remove C me g set_id set w C' me' g' set_id' set' :
  kvtree_get_kv_int (er_sets g) set_id = Some set ->
  DIRECTION set ≠ ER_DIRECTION_ENCODE ->
  DIRECTION set ≠ ER_DIRECTION_REBUILD ->
  unlinks_take_effect (storage C) (build_er_path (metadata_path (NAME set))) ->
  kvtree_get_kv_int (er_sets g') set_id' = Some set' ->
  DIRECTION set' = ER_DIRECTION_REBUILD ->
  NAME set' = NAME set ->
  er_state_read (dispatch_world C me g set_id w) me' (metadata_path (NAME set))
  = ER_STATE_NULL ∧
  ER_Dispatch C' me' g' set_id' (dispatch C me g set_id w).2 =
  (ER_FAILURE, (dispatch C me g set_id w).2).
Proof.
  intros Hset Henc Hreb Hu Hset' Hdir' Hname.
  assert (Hread : er_state_read (dispatch_world C me g set_id w) me'
                                (metadata_path (NAME set)) = ER_STATE_NULL).
  { unfold dispatch_world, dispatch, ER_Dispatch. rewrite Hset.
    destruct (Z.eqb_spec (DIRECTION set) ER_DIRECTION_ENCODE); [done |].
    destruct (Z.eqb_spec (DIRECTION set) ER_DIRECTION_REBUILD); [done |].
    rewrite er_remove_run. cbn [snd sys_world]. apply er_state_read_all_null.
    eapply Forall_impl; [by apply replicas_hold_unlink |].
    intros p Hp. unfold local_state.
    simpl in Hp. destruct (is_leader p); [| done]. by rewrite Hp. }
  split; [exact Hread |].
  unfold ER_Dispatch. rewrite Hset', Hdir'. simpl.
  apply er_rebuild_refuses. rewrite Hname.
  unfold dispatch_world in Hread. rewrite Hread. done.
Qed.

Lemma rebuild_refused_after_remove_witness :
  let removed := dispatch (answering true true true true true) 0%nat
                          g_remove 1 three_ranks_encoded in
  er_state_read removed.2.(sys_world) 1%nat "ckpt.er" = ER_STATE_NULL ∧
  ER_Dispatch (answering true true true true true) 1%nat g_rebuild 1 removed.2
  = (ER_FAILURE, removed.2).
Proof.
  intros removed. subst removed.
  exact (rebuild_refused_after_remove
           (answering true true true true true) 0%nat g_remove 1
           (SetRec "ckpt" ER_DIRECTION_REMOVE (Erset 0%nat 1%nat) None [])
           three_ranks_encoded
           (answering true true true true true) 1%nat g_rebuild 1
           (SetRec "ckpt" ER_DIRECTION_REBUILD (Erset 0%nat 1%nat) None [])
           eq_refl ltac:(discriminate) ltac:(discriminate)
           (reliable_unlinks _) eq_refl eq_refl eq_refl).
Defined.

Lemma successful_encode_world C me g set_id set w :
  kvtree_get_kv_int (er_sets g) set_id = Some set ->
  DIRECTION set = ER_DIRECTION_ENCODE ->
  dispatch_rc C me g set_id w = ER_SUCCESS ->
  dispatch_world C me g set_id w =
  er_state_write (storage C)
    (er_state_write (storage C) w (metadata_path (NAME set)) ER_STATE_CORRUPT)
    (metadata_path (NAME set)) ER_STATE_ENCODED.
Proof.
  intros Hset Hdir.
  unfold dispatch_rc, dispatch_world, dispatch, ER_Dispatch.
  rewrite Hset, Hdir. simpl.
  destruct (kvtree_get_kv_int (er_schemes g) _) as [d |]; [| done].
  destruct (SCHEME set); simpl; [| done].
  rewrite er_encode_run. by destruct (_ && _).
Qed.

(** X14.  After an ENCODE dispatch that returned ER_SUCCESS, in a world
    with a leader and with its writes of the state file having taken
    effect, every rank reads ENCODED, and the REBUILD dispatch of a set of
    the same name that comes next, on the storage as the encode left it,
    is admitted: it starts by writing CORRUPT and returns ER_SUCCESS
    exactly when its recover succeeds. *)
Theorem rebuild_admitted_after_encode C me g set_id set w C' me' g' set_id' set' :
  kvtree_get_kv_int (er_sets g) set_id = Some set ->
  DIRECTION set = ER_DIRECTION_ENCODE ->
  dispatch_rc C me g set_id w = ER_SUCCESS ->
  has_leader w = true ->
  writes_take_effect (storage C) (build_er_path (metadata_path (NAME set))) ->
  kvtree_get_kv_int (er_sets g') set_id' = Some set' ->
  DIRECTION set' = ER_DIRECTION_REBUILD ->
  NAME set' = NAME set ->
  let path := metadata_path (NAME set) in
  let w1 := dispatch_world C me g set_id w in
  er_state_read w1 me' path = ER_STATE_ENCODED ∧
  dispatch_rc C' me' g' set_id' w1 =
    (if (redset_recover C' (build_redset_path path me')).1
     then ER_SUCCESS else ER_FAILURE) ∧
  dispatch_trace C' me' g' set_id' w1 !! 0%nat =
    Some (EvStateWrite (build_er_path path) ER_STATE_CORRUPT).
Proof.
  intros Hset Hdir Hrc Hl Hw Hset' Hdir' Hname path w1.
  assert (Hread : er_state_read w1 me' path = ER_STATE_ENCODED).
  { subst w1. rewrite (successful_encode_world C me g set_id set w Hset Hdir Hrc).
    fold path. rewrite er_state_read_after_write_aux by done.
    by rewrite has_leader_write, Hl. }
  split; [exact Hread |].
  unfold dispatch_rc, dispatch_trace, dispatch, ER_Dispatch.
  rewrite Hset', Hdir'. simpl. rewrite Hname. fold path.
  rewrite er_rebuild_run, Hread. simpl.
  by destruct (redset_recover _ _).1.
Qed.

Lemma rebuild_admitted_after_encode_witness :
  let C := answering true true true true true in
  let w1 := dispatch_world C 0%nat g_encode 1 three_ranks in
  er_state_read w1 2%nat (metadata_path "ckpt") = ER_STATE_ENCODED ∧
  dispatch_rc C 2%nat g_rebuild 1 w1 = ER_SUCCESS.
Proof.
  intros C w1.
  destruct (rebuild_admitted_after_encode
              C 0%nat g_encode 1
              (SetRec "ckpt" ER_DIRECTION_ENCODE (Erset 0%nat 1%nat) (Some 1)
                      ["data.0"])
              three_ranks C 2%nat g_rebuild 1
              (SetRec "ckpt" ER_DIRECTION_REBUILD (Erset 0%nat 1%nat) None [])
              eq_refl eq_refl eq_refl eq_refl (reliable_writes _)
              eq_refl eq_refl eq_refl)
    as (Hread & Hrc & _).
  split; [exact Hread | exact Hrc].
Defined.

(** ** Files and the other directions *)

(** X15.  [ER_Add] accepts files for a set of any direction, but the files
    matter to an ENCODE dispatch only: adding a file (or failing to)
    changes neither the dispatch of another set nor the dispatch of a
    REBUILD or REMOVE set it was added to. *)
Theorem Add_matters_to_encode_only C me g set_id file set_id' set s :
  kvtree_get_kv_int (er_sets g) set_id' = Some set ->
  set_id' ≠ set_id ∨ DIRECTION set ≠ ER_DIRECTION_ENCODE ->
  ER_Dispatch C me (ER_Add set_id file g).2 set_id' s =
  ER_Dispatch C me g set_id' s.
Proof.
  intros Hset Hor. unfold ER_Add.
  destruct (null_or_empty file); [done |].
  destruct (kvtree_get_kv_int (er_sets g) set_id) as [set0 |] eqn:Hset0; [| done].
  unfold ER_Dispatch. simpl.
  unfold kvtree_get_kv_int in Hset, Hset0 |- *.
  destruct (er_sets g) as [m |]; simplify_eq/=.
  destruct (decide (set_id' = set_id)) as [-> | Hne].
  - destruct Hor as [? | Hdir]; [done |].
    rewrite lookup_insert_eq, Hset. simplify_eq. simpl.
    destruct (Z.eqb_spec (DIRECTION set) ER_DIRECTION_ENCODE); done.
  - by rewrite lookup_insert_ne, Hset.
Qed.

(** A file added to the REBUILD set of [g_rebuild]. *)
Lemma Add_matters_to_encode_only_witness :
  (ER_Add 1 (Some "data.0") g_rebuild).1 = ER_SUCCESS ∧
  ER_Dispatch (answering true true true true true) 0%nat
              (ER_Add 1 (Some "data.0") g_rebuild).2 1 (Sys three_ranks_encoded [])
  = ER_Dispatch (answering true true true true true) 0%nat
                g_rebuild 1 (Sys three_ranks_encoded []).
Proof.
  split; [reflexivity |].
  apply (Add_matters_to_encode_only
           (answering true true true true true) 0%nat g_rebuild 1
           (Some "data.0") 1
           (SetRec "ckpt" ER_DIRECTION_REBUILD (Erset 0%nat 1%nat) None [])).
  - reflexivity.
  - right. discriminate.
Defined.

(** ** Before [ER_Init] and after [ER_Finalize] *)

(** X16.  While the registries do not exist (before [ER_Init], after
    [ER_Finalize]) the creation calls still bump their counter and return
    an id, but record nothing: the scheme id cannot be freed nor bound to
    an ENCODE set (which returns -1), and the id of a REBUILD or REMOVE
    set takes no file and dispatches to ER_FAILURE without any effect. *)
Theorem ids_without_registries C me comm fd D E cw cs n dir sid ok file s g :
  er_schemes g = None ->
  er_sets g = None ->
  supported D E ->
  n ≠ "" ->
  dir = ER_DIRECTION_REBUILD ∨ dir = ER_DIRECTION_REMOVE ->
  let scheme := ER_Create_Scheme true comm fd D E g in
  let set := ER_Create cw cs (Some n) dir sid g in
  (scheme.1 = er_scheme_counter g + 1 ∧
   er_schemes scheme.2 = None ∧
   ER_Free_Scheme ok scheme.1 scheme.2 = (ER_FAILURE, scheme.2) ∧
   (ER_Create cw cs (Some n) ER_DIRECTION_ENCODE scheme.1 scheme.2).1 = -1) ∧
  (set.1 = er_set_counter g + 1 ∧
   er_sets set.2 = None ∧
   ER_Add set.1 file set.2 = (ER_FAILURE, set.2) ∧
   ER_Dispatch C me set.2 set.1 s = (ER_FAILURE, s)).
Proof.
  intros Hs Hs' Hsup Hn Hdir scheme set. subst scheme set.
  pose proof (proj1 (supported_iff D E) Hsup) as [HD _].
  split.
  - unfold ER_Create_Scheme. destruct (Z.ltb_spec D 1); [lia |].
    rewrite (encoding_type_of_supported D E Hsup). simpl. rewrite Hs. simpl.
    split; [done |]. split; [done |]. split; [done |].
    unfold ER_Create. simpl. by rewrite bool_decide_eq_false_2 by done.
  - assert (Hv : valid_direction dir = true) by (by destruct Hdir as [-> | ->]).
    assert (He : (dir =? ER_DIRECTION_ENCODE) = false)
      by (by destruct Hdir as [-> | ->]).
    unfold ER_Create. simpl. rewrite bool_decide_eq_false_2 by done.
    rewrite Hv, He, Hs'. simpl.
    split; [done |]. split; [done |]. split; [| done].
    unfold ER_Add. by destruct (null_or_empty file).
Qed.

Lemma ids_without_registries_witness :
  (ER_Create_Scheme true 0%nat None 2 1 er_start).1 = 1 ∧
  ER_Free_Scheme true 1 (ER_Create_Scheme true 0%nat None 2 1 er_start).2
  = (ER_FAILURE, (ER_Create_Scheme true 0%nat None 2 1 er_start).2).
Proof.
  destruct (ids_without_registries
              (answering true true true true true) 0%nat 0%nat None 2 1
              0%nat 1%nat "ckpt" ER_DIRECTION_REBUILD 0 true None
              (Sys three_ranks []) er_start)
    as [(Hid & _ & Hfree & _) _].
  - reflexivity.
  - reflexivity.
  - right. right. done.
  - done.
  - left. reflexivity.
  - split; [exact Hid | exact Hfree].
Defined.

(** ** File names *)

Lemma substring_all s n : (String.length s <= n)%nat -> substring 0 n s = s.
Proof.
  revert n. induction s as [| a s IH]; intros [| n] Hlen; simpl in *;
    try done; try lia.
  f_equal. apply IH. lia.
Qed.

Lemma substring_append s t n :
  (n <= String.length s)%nat -> substring 0 n (s ++ t) = substring 0 n s.
Proof.
  revert n. induction s as [| a s IH]; intros [| n] Hlen; simpl in *;
    try done; try lia.
  - by destruct t.
  - f_equal. apply IH. lia.
Qed.

Lemma length_append s t :
  String.length (s ++ t) = (String.length s + String.length t)%nat.
Proof. induction s as [| a s IH]; simpl; [done | by rewrite IH]. Qed.

Lemma append_inj_l s t1 t2 : s ++ t1 = s ++ t2 -> t1 = t2.
Proof.
  induction s as [| a s IH]; simpl; intros H; [done |].
  injection H as H. by apply IH.
Qed.

Lemma append_inj_r s1 s2 t : s1 ++ t = s2 ++ t -> s1 = s2.
Proof.
  revert s2. induction s1 as [| a s1 IH]; intros [| b s2] H; simpl in *.
  - done.
  - exfalso. apply (f_equal String.length) in H.
    rewrite ?length_append in H. simpl in H. rewrite ?length_append in H. lia.
  - exfalso. apply (f_equal String.length) in H.
    rewrite ?length_append in H. simpl in H. rewrite ?length_append in H. lia.
  - injection H as -> H. f_equal. by apply IH.
Qed.

Lemma er_file_of_short_name n :
  (String.length n <= 1017)%nat ->
  build_er_path (metadata_path n) = (n ++ ".er") ++ ".er".
Proof.
  intros Hlen. unfold build_er_path, metadata_path, snprintf.
  rewrite (substring_all (n ++ ".er")) by (rewrite length_append; simpl; lia).
  apply substring_all. rewrite !length_append. simpl. lia.
Qed.

(** X17.  A set name of at most 1017 characters is not truncated on the
    way to the path of its state file, which is the name followed by
    .er.er; two distinct such names therefore get distinct path strings.
    Whether two path strings name one file is the file system's matter
    and is not stated here. *)
Theorem state_file_path_of_short_names n n' :
  (String.length n <= 1017)%nat ->
  (String.length n' <= 1017)%nat ->
  build_er_path (metadata_path n) = (n ++ ".er") ++ ".er" ∧
  (n' ≠ n ->
   build_er_path (metadata_path n') ≠ build_er_path (metadata_path n)).
Proof.
  intros Hlen Hlen'. split; [by apply er_file_of_short_name |].
  intros Hne. rewrite !er_file_of_short_name by done.
  intros H. apply Hne. by do 2 apply append_inj_r in H.
Qed.

Lemma state_file_path_of_short_names_witness :
  build_er_path (metadata_path "ckpt") = "ckpt.er.er" ∧
  build_er_path (metadata_path "other") ≠ build_er_path (metadata_path "ckpt").
Proof.
  assert (H1 : (String.length "ckpt" <= 1017)%nat) by (simpl; lia).
  assert (H2 : (String.length "other" <= 1017)%nat) by (simpl; lia).
  destruct (state_file_path_of_short_names "ckpt" "other" H1 H2) as [Hp Hd].
  split; [exact Hp | apply Hd; discriminate].
Defined.

(** X18.  The metadata prefix is cut at 1023 characters: two set names
    that agree on their first 1023 characters get the same prefix, hence
    the same state file, shuffle file and redundancy files. *)
Theorem long_names_share_metadata n1 n2 :
  (1023 <= String.length n1)%nat ->
  (1023 <= String.length n2)%nat ->
  substring 0 1023 n1 = substring 0 1023 n2 ->
  metadata_path n1 = metadata_path n2.
Proof.
  intros H1 H2 H. unfold metadata_path, snprintf.
  change (1024 - 1)%nat with 1023%nat.
  by rewrite !substring_append.
Qed.

(** Two names of 1024 characters that differ in the last one. *)
Lemma long_names_share_metadata_witness :
  padded_name 1023 "a" ≠ padded_name 1023 "b" ∧
  metadata_path (padded_name 1023 "a") = metadata_path (padded_name 1023 "b").
Proof.
  split.
  - intros H. vm_compute in H. discriminate H.
  - apply long_names_share_metadata.
    + vm_compute. lia.
    + vm_compute. lia.
    + vm_compute. reflexivity.
Defined.

(** X19.  As long as the redset path of a rank fits its buffer, distinct
    world ranks get distinct redset paths under the same prefix. *)
Theorem redset_paths_distinct path r1 r2 :
  (String.length (path ++ "." ++ pretty r1) <= 1023)%nat ->
  (String.length (path ++ "." ++ pretty r2) <= 1023)%nat ->
  r1 ≠ r2 ->
  build_redset_path path r1 ≠ build_redset_path path r2.
Proof.
  intros H1 H2 Hne. unfold build_redset_path, snprintf.
  change (1024 - 1)%nat with 1023%nat.
  rewrite !substring_all by done.
  intros H. apply Hne.
  apply append_inj_l in H. apply (append_inj_l ".") in H.
  by apply (inj pretty) in H.
Qed.

Lemma redset_paths_distinct_witness :
  build_redset_path "ckpt.er" 1 ≠ build_redset_path "ckpt.er" 12.
Proof.
  apply redset_paths_distinct.
  - vm_compute. lia.
  - vm_compute. lia.
  - lia.
Defined.

(** ** Calls on one set and the other sets *)

(** X20.  [ER_Add] and [ER_Free] touch the set they name and nothing
    else: the records of the other set ids, the scheme registry and both
    counters are as before. *)
Theorem Add_and_Free_touch_one_set set_id file g set_id' :
  set_id' ≠ set_id ->
  let added := (ER_Add set_id file g).2 in
  let freed := (ER_Free set_id g).2 in
  (kvtree_get_kv_int (er_sets added) set_id'
   = kvtree_get_kv_int (er_sets g) set_id' ∧
   er_schemes added = er_schemes g ∧
   er_scheme_counter added = er_scheme_counter g ∧
   er_set_counter added = er_set_counter g) ∧
  (kvtree_get_kv_int (er_sets freed) set_id'
   = kvtree_get_kv_int (er_sets g) set_id' ∧
   er_schemes freed = er_schemes g ∧
   er_scheme_counter freed = er_scheme_counter g ∧
   er_set_counter freed = er_set_counter g).
Proof.
  intros Hne added freed. subst added freed. split.
  - unfold ER_Add. destruct (null_or_empty file); [done |].
    destruct (kvtree_get_kv_int (er_sets g) set_id) as [set |]; [| done].
    simpl. split; [| done].
    unfold kvtree_get_kv_int. destruct (er_sets g) as [m |]; simpl; [| done].
    by apply lookup_insert_ne.
  - unfold ER_Free. simpl. split; [| done].
    unfold kvtree_get_kv_int, kvtree_unset_kv_int.
    destruct (er_sets g) as [m |]; simpl; [| done].
    by apply lookup_delete_ne.
Qed.

Lemma Add_and_Free_touch_one_set_witness :
  kvtree_get_kv_int (er_sets (ER_Free 2 g_encode).2) 1
  = kvtree_get_kv_int (er_sets g_encode) 1.
Proof.
  destruct (Add_and_Free_touch_one_set 2 None g_encode 1) as [_ [H _]];
    [discriminate | exact H].
Defined.

(** X21.  Whatever calls built the registries, the list of files an
    ENCODE dispatch hands to the codec's apply is the file hash of the
    dispatched set and names no path twice. *)
Theorem apply_gets_each_file_once (cs : list api_call) C me set_id w
  files redset_path d ok :
  EvRedsetApply files redset_path d ok
    ∈ dispatch_trace C me (run cs er_start) set_id w ->
  files = files_of (run cs er_start) set_id ∧ NoDup files.
Proof.
  pose proof (run_wf cs er_start er_start_wf) as (_ & _ & _ & _ & Hwf).
  set (g := run cs er_start) in *. clearbody g.
  unfold dispatch_trace, dispatch, ER_Dispatch, files_of.
  destruct (kvtree_get_kv_int (er_sets g) set_id) as [set |] eqn:Hset;
    [| by intros ?%elem_of_nil].
  assert (Hnd : NoDup (FILE set)).
  { unfold kvtree_get_kv_int in Hset.
    destruct (er_sets g) as [m |] eqn:E; simplify_eq/=.
    by destruct (Hwf m set_id set eq_refl Hset) as (_ & _ & _ & ?). }
  simpl.
  destruct (DIRECTION set =? ER_DIRECTION_ENCODE).
  - destruct (kvtree_get_kv_int (er_schemes g) _) as [d0 |];
      [| by intros ?%elem_of_nil].
    destruct (SCHEME set); simpl; [| by intros ?%elem_of_nil].
    rewrite er_encode_run.
    destruct (_ && _); simpl; intros [i Hi]%list_elem_of_lookup_1;
      by_position i.
  - destruct (DIRECTION set =? ER_DIRECTION_REBUILD).
    + rewrite er_rebuild_run. destruct (negb _); [by intros ?%elem_of_nil |].
      destruct (redset_recover _ _).1; simpl;
        intros [i Hi]%list_elem_of_lookup_1; by_position i.
    + rewrite er_remove_run. simpl.
      intros [i Hi]%list_elem_of_lookup_1. by_position i.
Qed.

(** "data.0" added twice, "data.1" once: apply gets two files. *)
Lemma apply_gets_each_file_once_witness :
  let cs := [CallInit true true;
             CallCreateScheme true 0%nat (Some "node") 2 1;
             CallCreate 0%nat 1%nat (Some "ckpt") ER_DIRECTION_ENCODE 1;
             CallAdd 1 (Some "data.0");
             CallAdd 1 (Some "data.1");
             CallAdd 1 (Some "data.0")] in
  ["data.1"; "data.0"] = files_of (run cs er_start) 1 ∧
  NoDup ["data.1"; "data.0"].
Proof.
  intros cs.
  refine (apply_gets_each_file_once
            cs (answering true true true true true) 0%nat 1 three_ranks
            ["data.1"; "data.0"] "ckpt.er.0"
            (Redset REDSET_COPY_XOR 0%nat (Some "node")) true _).
  apply (list_elem_of_lookup_2 _ 1%nat). reflexivity.
Defined.
